(** * ParCSE: the sentence encoder of [paraphrasegen/model.py]

    A shallow embedding of the pooling strategies, the projection head's
    constructor, the encoder's forward pass (with its in-place input
    corruption), the evaluation metrics and the optimizer's parameter
    groups, followed by the properties stated about them.

    Numbers.  Token ids and attention masks are integer tensors ([Z]).
    Hidden states are floating-point tensors; pooling only uses field
    operations, so it is modelled on exact rationals ([Q]) and runs inside
    Rocq.  The evaluation metrics and the loss need square roots,
    exponentials and logarithms and are modelled on the reals ([R]).

    Shapes.  A tensor is an index function read inside its shape; the batch
    size [N], the sequence length [L] and the hidden width [D] are fixed per
    section, as the backbone delivers [N,L,D] hidden states for [N,L]
    inputs. *)

From Stdlib Require Import ZArith QArith Qreals Reals Lra Lia List String Permutation.
From stdpp Require Import base gmap strings.
Import ListNotations.

(** ** Python exceptions and fallible results *)

Inductive exn : Type :=
  | AssertionError (msg : string)
  | IndexError
  | NotImplementedError
  | UnboundLocalError (var : string)
  | InvalidReference.

Inductive result (A : Type) : Type :=
  | Ok (a : A)
  | Err (e : exn).
Arguments Ok {A} a.
Arguments Err {A} e.

Definition is_ok {A} (r : result A) : bool :=
  match r with Ok _ => true | Err _ => false end.

(** [x in xs] on a Python list of strings. *)
Definition py_in (x : string) (xs : list string) : bool :=
  existsb (String.eqb x) xs.

(** [xs[i]] on a Python sequence, negative indices counting from the end. *)
Definition py_index {A} (xs : list A) (i : Z) : result A :=
  let n := Z.of_nat (length xs) in
  let k := (if i <? 0 then n + i else i)%Z in
  if ((0 <=? k) && (k <? n))%Z
  then match nth_error xs (Z.to_nat k) with
       | Some x => Ok x
       | None => Err IndexError
       end
  else Err IndexError.

(** ** Tensors *)

(** Integer tensor of shape [N,L]: token ids, attention masks. *)
Definition Ids : Type := nat -> nat -> Z.

(** Hidden-state tensor of shape [N,L,D]. *)
Definition Hidden : Type := nat -> nat -> nat -> Q.

(** A floating-point value that may have left the finite range: [None] is
    the [nan] or [inf] that a division by zero produces. *)
Definition fl : Type := option Q.

(** Sentence embeddings, shape [N,D]. *)
Definition Emb : Type := nat -> nat -> fl.

(** Rows of a literal, for concrete tensors. *)
Definition ids_of_rows (rows : list (list Z)) : Ids :=
  fun i j => nth j (nth i rows []) 0%Z.

Definition hidden_of_rows (rows : list (list (list Q))) : Hidden :=
  fun i l d => nth d (nth l (nth i rows []) []) 0%Q.

(** [sum_{k < n} f k], the reduction of one axis. *)
Fixpoint Qsum (f : nat -> Q) (n : nat) : Q :=
  match n with
  | O => 0%Q
  | S k => (Qsum f k + f k)%Q
  end.

Fixpoint Zsum (f : nat -> Z) (n : nat) : Z :=
  match n with
  | O => 0%Z
  | S k => (Zsum f k + f k)%Z
  end.

(** Float division; a zero divisor gives a non-finite value. *)
Definition fdiv (x y : Q) : fl :=
  if Qeq_bool y 0 then None else Some (x / y)%Q.

(** Equality of float values and of embeddings inside the shape [N,D]. *)
Definition fl_eq (x y : fl) : Prop :=
  match x, y with
  | Some a, Some b => (a == b)%Q
  | None, None => True
  | _, _ => False
  end.

Definition emb_eq (N D : nat) (a b : Emb) : Prop :=
  forall i d, (i < N)%nat -> (d < D)%nat -> fl_eq (a i d) (b i d).

Definition hidden_eq (N L D : nat) (a b : Hidden) : Prop :=
  forall i l d, (i < N)%nat -> (l < L)%nat -> (d < D)%nat -> (a i l d == b i l d)%Q.

Definition ids_eq (N L : nat) (a b : Ids) : Prop :=
  forall i j, (i < N)%nat -> (j < L)%nat -> a i j = b i j.

Definition res_emb_eq (N D : nat) (x y : result Emb) : Prop :=
  match x, y with
  | Ok a, Ok b => emb_eq N D a b
  | Err e, Err e' => e = e'
  | _, _ => False
  end.

(** ** Pooler *)

Module Pooler.

Record t : Type := { pooler_type : string }.

(** What the backbone returns when all hidden states are requested. *)
Record BertOutputs : Type := {
  last_hidden_state : Hidden;
  pooler_output : nat -> nat -> Q;
  hidden_states : list Hidden
}.

Definition recognized : list string :=
  ["cls"; "cls_before_pooler"; "avg"; "avg_top2"; "avg_first_last"]%string.

(** [Pooler.__init__]: the assertion on the strategy name. *)
Definition init (pooler_type : string) : result t :=
  if py_in pooler_type recognized
  then Ok {| pooler_type := pooler_type |}
  else Err (AssertionError ("unrecognized_pooling_type: " ++ pooler_type)).

Section Forward.
Variable L : nat.

(** [(h * attention_mask.unsqueeze(-1)).sum(1) /
     attention_mask.sum(-1).unsqueeze(-1)] *)
Definition masked_mean (h : Hidden) (attention_mask : Ids) : Emb :=
  fun i d =>
    fdiv (Qsum (fun l => h i l d * inject_Z (attention_mask i l))%Q L)
         (inject_Z (Zsum (fun l => attention_mask i l) L)).

(** [(a + b) / 2.0] *)
Definition half_sum (a b : Hidden) : Hidden :=
  fun i l d => ((a i l d + b i l d) / 2)%Q.

(** [Pooler.forward] *)
Definition forward (self : t) (attention_mask : Ids) (outputs : BertOutputs)
  : result Emb :=
  let last_hidden := last_hidden_state outputs in
  let hidden_states := hidden_states outputs in
  let ty := pooler_type self in
  if py_in ty ["cls_before_pooler"; "cls"]%string then
    (* last_hidden[:, 0] *)
    if (L =? 0)%nat then Err IndexError
    else Ok (fun i d => Some (last_hidden i 0%nat d))
  else if (ty =? "avg")%string then
    Ok (masked_mean last_hidden attention_mask)
  else if (ty =? "avg_first_last")%string then
    match py_index hidden_states 0 with
    | Err e => Err e
    | Ok first_hidden =>
        match py_index hidden_states (-1) with
        | Err e => Err e
        | Ok last_hidden =>
            Ok (masked_mean (half_sum first_hidden last_hidden) attention_mask)
        end
    end
  else if (ty =? "avg_top2")%string then
    match py_index hidden_states (-2) with
    | Err e => Err e
    | Ok second_last_hidden =>
        match py_index hidden_states (-1) with
        | Err e => Err e
        | Ok last_hidden =>
            Ok (masked_mean (half_sum last_hidden second_last_hidden) attention_mask)
        end
    end
  else Err NotImplementedError.
End Forward.

End Pooler.

(** ** MLPLayer: the projection head *)

Module MLPLayer.

Inductive activation_fn : Type := GELU | ReLU | Mish | LeakyReLU.

Inductive layer : Type :=
  | Linear (in_features out_features : nat)
  | LayerNorm (normalized_shape : nat)
  | Activation (fn : activation_fn).

(** The [nn.Sequential] the constructor builds. *)
Record t : Type := { net : list layer }.

(** The [if]/[elif] chain on the activation name has no [else]: with any
    other name the local variable stays unbound. *)
Definition select_activation (activation : string) : option activation_fn :=
  if (activation =? "GELU")%string then Some GELU
  else if (activation =? "ReLU")%string then Some ReLU
  else if (activation =? "mish")%string then Some Mish
  else if (activation =? "leaky_relu")%string then Some LeakyReLU
  else None.

(** [for i in range(1, len(hidden_dims))]: one block per further width;
    [prev] is [hidden_dims[i - 1]]. *)
Fixpoint more_blocks (prev : nat) (rest : list nat) (fn : activation_fn)
  : list layer :=
  match rest with
  | [] => []
  | h :: rest' =>
      Linear prev h :: LayerNorm h :: Activation fn :: more_blocks h rest' fn
  end.

(** [MLPLayer.__init__].  The first list display evaluates
    [hidden_dims[0]] before it reads [activation_fn]. *)
Definition init (in_dims : nat) (hidden_dims : list nat) (activation : string)
  : result t :=
  let activation_fn := select_activation activation in
  match hidden_dims with
  | [] => Err IndexError
  | h0 :: rest =>
      match activation_fn with
      | None => Err (UnboundLocalError "activation_fn")
      | Some fn =>
          Ok {| net := Linear in_dims h0 :: LayerNorm h0 :: Activation fn
                         :: more_blocks h0 rest fn |}
      end
  end.

Definition recognized : list string := ["GELU"; "ReLU"; "mish"; "leaky_relu"]%string.

End MLPLayer.

(** ** The tensor store and its monad

    Tensors passed to [forward] are Python objects shared with the caller:
    an argument is a reference into a store, and an indexed assignment
    updates the store in place. *)

Definition loc : Type := positive.
Abbreviation Store := (gmap loc Ids).

Definition M (A : Type) : Type := Store -> result A * Store.

Definition ret {A} (a : A) : M A := fun s => (Ok a, s).

Definition bind {A B} (m : M A) (k : A -> M B) : M B :=
  fun s =>
    match m s with
    | (Ok a, s') => k a s'
    | (Err e, s') => (Err e, s')
    end.

Definition raise {A} (e : exn) : M A := fun s => (Err e, s).

Definition lift {A} (r : result A) : M A := fun s => (r, s).

(** Read the tensor behind a reference. *)
Definition load (r : loc) : M Ids :=
  fun s => match s !! r with
           | Some t => (Ok t, s)
           | None => (Err InvalidReference, s)
           end.

(** Overwrite the tensor behind a reference. *)
Definition store (r : loc) (t : Ids) : M unit :=
  fun s => match s !! r with
           | Some _ => (Ok tt, <[r := t]> s)
           | None => (Err InvalidReference, s)
           end.

Notation "'let*' x ':=' m 'in' k" := (bind m (fun x => k))
  (at level 10, x name, m at level 100, k at level 200).
Notation "m '>>' k" := (bind m (fun _ => k))
  (at level 65, right associativity).

(** ** Encoder *)

Module Encoder.

Section Model.
Variable L : nat.

(** The pretrained backbone, called with [output_hidden_states=True]; it
    reads its inputs and returns fresh tensors. *)
Variable bert_model : Ids -> Ids -> Pooler.BertOutputs.

(** What the projection head computes with its current weights. *)
Variable mlp_forward : MLPLayer.t -> Emb -> Emb.

Record t : Type := {
  input_mask_rate : Q;
  pooler_type : string;
  pooler : Pooler.t;
  net : MLPLayer.t;
  temp : Q;
  hard_negative_weight : Q;
  learning_rate : Q;
  weight_decay : Q
}.

(** [Encoder.__init__]: the pooler and the projection head are built
    from the arguments; the head always gets the default activation. *)
Definition init (input_mask_rate : Q) (pooler_type : string)
    (mlp_layers : list nat) (temp hard_negative_weight learning_rate
    weight_decay : Q) : result t :=
  match Pooler.init pooler_type with
  | Err e => Err e
  | Ok pooler =>
      match MLPLayer.init 768 mlp_layers "GELU" with
      | Err e => Err e
      | Ok net =>
          Ok {| input_mask_rate := input_mask_rate;
                pooler_type := pooler_type;
                pooler := pooler;
                net := net;
                temp := temp;
                hard_negative_weight := hard_negative_weight;
                learning_rate := learning_rate;
                weight_decay := weight_decay |}
      end
  end.

(** [(torch.rand(input_ids.size()) > self.input_mask_rate)
     * (input_ids != 101) * (input_ids != 102)] *)
Definition sentence_mask (self : t) (rand : nat -> nat -> Q) (input_ids : Ids)
  : nat -> nat -> bool :=
  fun i j =>
    negb (Qle_bool (rand i j) (input_mask_rate self))
    && negb (input_ids i j =? 101)%Z
    && negb (input_ids i j =? 102)%Z.

(** [input_ids[sentence_mask] = 0] *)
Definition masked_fill_zero (input_ids : Ids) (mask : nat -> nat -> bool) : Ids :=
  fun i j => if mask i j then 0%Z else input_ids i j.

(** [Encoder.forward]; [rand] is the tensor [torch.rand] draws. *)
Definition forward (self : t) (input_ids attention_mask : loc) (do_mlm : bool)
    (rand : nat -> nat -> Q) : M Emb :=
  (if do_mlm then
     let* ids := load input_ids in
     store input_ids (masked_fill_zero ids (sentence_mask self rand ids))
   else ret tt) >>
  let* ids := load input_ids in
  let* mask := load attention_mask in
  let bert_outputs := bert_model ids mask in
  let* pooler_output := lift (Pooler.forward L (pooler self) mask bert_outputs) in
  if (pooler_type self =? "cls")%string
  then ret (mlp_forward (net self) pooler_output)
  else ret pooler_output.
End Model.

End Encoder.

(** ** Real-valued embedding matrices, for the metrics and the loss *)

(** One embedding vector, read at [d < D]; a matrix is the list of its rows. *)
Definition Row : Type := nat -> R.
Definition Matrix : Type := list Row.

Fixpoint Rsum (f : nat -> R) (n : nat) : R :=
  match n with
  | O => 0%R
  | S k => (Rsum f k + f k)%R
  end.

Definition Rlist_sum (xs : list R) : R := fold_right Rplus 0%R xs.

Definition matrix_of_rows (rows : list (list R)) : Matrix :=
  map (fun r d => nth d r 0%R) rows.

(** ** Evaluation step *)

Module Evaluate.

Record Batch : Type := {
  anchor_input_ids : Ids;
  anchor_attention_mask : Ids;
  target_input_ids : Ids;
  target_attention_mask : Ids;
  labels : list Z
}.

Record Metrics : Type := {
  diff_pos : R;
  diff_neg : R;
  sim_pos : R;
  sim_neg : R;
  hp_metric : R
}.

Section Model.
Variable D : nat.

(** [self(input_ids=.., attention_mask=.., do_mlm=False)]: one embedding
    row per example. *)
Variable encode : Ids -> Ids -> Matrix.

(** [Similarity(temp=..)(x, y).mean()]; the class lives in
    [paraphrasegen/loss.py]. *)
Variable sim_mean : Matrix -> Matrix -> R.

(** [x[mask]] with a boolean mask over the first axis. *)
Definition masked_select (x : Matrix) (mask : list bool) : result Matrix :=
  if (length x =? length mask)%nat
  then Ok (map fst (List.filter snd (combine x mask)))
  else Err IndexError.

(** [a - b], row by row. *)
Definition msub (a b : Matrix) : Matrix :=
  map (fun ab : Row * Row => fun d => (fst ab d - snd ab d)%R) (combine a b).

Definition sum_squares (r : Row) : R := Rsum (fun d => (r d * r d)%R) D.

(** [torch.norm(m)]: no axis is given, so the norm runs over all entries
    of the matrix and the result is one scalar. *)
Definition norm (m : Matrix) : R := sqrt (Rlist_sum (map sum_squares m)).

(** [.mean()] of a scalar tensor. *)
Definition scalar_mean (x : R) : R := x.

(** [Encoder._evaluate]: the values handed to [log_dict] and [log]. *)
Definition _evaluate (batch : Batch) : result Metrics :=
  let anchor_outputs :=
    encode (anchor_input_ids batch) (anchor_attention_mask batch) in
  let target_outputs :=
    encode (target_input_ids batch) (target_attention_mask batch) in
  let is1 := map (fun l => (l =? 1)%Z) (labels batch) in
  let is0 := map (fun l => (l =? 0)%Z) (labels batch) in
  match masked_select anchor_outputs is1 with Err e => Err e | Ok pos_anchor_emb =>
  match masked_select target_outputs is1 with Err e => Err e | Ok pos_target_emb =>
  match masked_select anchor_outputs is0 with Err e => Err e | Ok neg_anchor_emb =>
  match masked_select target_outputs is0 with Err e => Err e | Ok neg_target_emb =>
    let pos_diff := scalar_mean (norm (msub pos_anchor_emb pos_target_emb)) in
    let neg_diff := scalar_mean (norm (msub neg_anchor_emb neg_target_emb)) in
    let pos_sim := sim_mean pos_anchor_emb pos_target_emb in
    let neg_sim := sim_mean neg_anchor_emb neg_target_emb in
    Ok {| diff_pos := pos_diff;
          diff_neg := neg_diff;
          sim_pos := pos_sim;
          sim_neg := neg_sim;
          hp_metric := (pos_sim - neg_sim)%R |}
  end end end end.

(** The metric the specification describes: the mean, over the rows
    that carry label [lab], of the Euclidean distance between the anchor
    row and the target row. *)
Definition distance (a b : Row) : R :=
  sqrt (Rsum (fun d => ((a d - b d) * (a d - b d))%R) D).

Definition mean_distance (anchors targets : Matrix) (labels : list Z) (lab : Z) : R :=
  let picked :=
    map fst (List.filter (fun p => (snd p =? lab)%Z)
                    (combine (combine anchors targets) labels)) in
  (Rlist_sum (map (fun ab : Row * Row => distance (fst ab) (snd ab)) picked)
   / INR (length picked))%R.
End Model.

End Evaluate.

(** ** Optimizer configuration *)

Module Optimizer.

(** [nd in n] on strings: [nd] occurs somewhere in [n]. *)
Fixpoint str_in (nd n : string) : bool :=
  if String.prefix nd n then true
  else match n with
       | EmptyString => false
       | String _ n' => str_in nd n'
       end.

Definition no_decay : list string := ["bias"; "LayerNorm.weight"]%string.

(** [any(nd in n for nd in no_decay)] *)
Definition any_no_decay (n : string) : bool :=
  existsb (fun nd => str_in nd n) no_decay.

Section Model.
(** Parameter tensors, as the objects [named_parameters] yields. *)
Variable Param : Type.

Record param_group : Type := {
  params : list Param;
  group_weight_decay : Q
}.

Record AdamW : Type := {
  param_groups : list param_group;
  lr : Q
}.

(** [Encoder.configure_optimizers] *)
Definition configure_optimizers (named_parameters : list (string * Param))
    (weight_decay learning_rate : Q) : AdamW :=
  let optimizer_grouped_parameters :=
    [ {| params :=
           map snd (List.filter (fun np => negb (any_no_decay (fst np))) named_parameters);
         group_weight_decay := weight_decay |};
      {| params :=
           map snd (List.filter (fun np => any_no_decay (fst np)) named_parameters);
         group_weight_decay := 0 |} ] in
  {| param_groups := optimizer_grouped_parameters; lr := learning_rate |}.
End Model.

End Optimizer.

(** ** Contrastive loss

    [paraphrasegen/loss.py] is not among the sources at hand; this module
    follows the specification's description of it. *)

Module Loss.

(** [f] applied to each element with its index, counting from [k]. *)
Fixpoint mapi_from {A B} (f : nat -> A -> B) (k : nat) (xs : list A) : list B :=
  match xs with
  | [] => []
  | x :: xs' => f k x :: mapi_from f (S k) xs'
  end.

Definition mapi {A B} (f : nat -> A -> B) (xs : list A) : list B := mapi_from f 0 xs.

Definition mean (xs : list R) : R := (Rlist_sum xs / INR (length xs))%R.

Section Model.
Variable D : nat.

Definition dot (a b : Row) : R := Rsum (fun d => (a d * b d)%R) D.

(** Modelled from the spec: the Similarity Function of
    [paraphrasegen/loss.py]; entry [(i,j)] is the cosine similarity of
    [A_i] and [B_j] divided by the temperature. *)
Definition Similarity (temp : R) (A B : Matrix) : list (list R) :=
  map (fun a =>
         map (fun b => (dot a b / (sqrt (dot a a) * sqrt (dot b b)) / temp)%R) B)
      A.

(** Modelled from the spec: the per-column weight bias of the Contrastive
    Loss of [paraphrasegen/loss.py], [w] at the matched (diagonal)
    negative of each row and [0] elsewhere. *)
Definition hard_negative_bias (w : R) (i j : nat) : R :=
  if (i =? j)%nat then w else 0%R.

(** Modelled from the spec: row-wise categorical cross-entropy of
    [paraphrasegen/loss.py], the logits of one row against its label. *)
Definition cross_entropy (logits : list R) (label : nat) : R :=
  (ln (Rlist_sum (map exp logits)) - nth label logits 0)%R.

(** Modelled from the spec: [S1 | S2] along the candidate axis, as
    [paraphrasegen/loss.py] concatenates them. *)
Definition concat_columns (S1 S2 : list (list R)) : list (list R) :=
  map (fun rows : list R * list R => fst rows ++ snd rows) (combine S1 S2).

(** Modelled from the spec: the Contrastive Loss of
    [paraphrasegen/loss.py], steps 1 to 5 of its algorithm. *)
Definition ContrastiveLoss (temp hard_negative_weight : R)
    (z_a z_t z_n : Matrix) : R :=
  let S1 := Similarity temp z_a z_t in
  let S2 := Similarity temp z_a z_n in
  let S2w :=
    mapi (fun i row =>
            mapi (fun j x => (x + hard_negative_bias hard_negative_weight i j)%R) row)
         S2 in
  let logits := concat_columns S1 S2w in
  mean (mapi (fun i row => cross_entropy row i) logits).

(** Modelled from the spec: the unweighted in-batch-negative loss, the
    mean row-wise cross-entropy over [S1 | S2] with no bias on any
    column; the reference the loss of [paraphrasegen/loss.py] is compared
    with. *)
Definition in_batch_negative_loss (temp : R) (z_a z_t z_n : Matrix) : R :=
  let logits := concat_columns (Similarity temp z_a z_t) (Similarity temp z_a z_n) in
  mean (mapi (fun i row => cross_entropy row i) logits).
End Model.

End Loss.

(** ** Reference notions the properties are stated with *)

Definition result_map {A B} (f : A -> B) (r : result A) : result B :=
  match r with
  | Ok a => Ok (f a)
  | Err e => Err e
  end.

(** The unweighted mean of the [L] token vectors of each example. *)
Definition unweighted_mean (L : nat) (h : Hidden) : Emb :=
  fun i d => fdiv (Qsum (fun l => h i l d) L) (inject_Z (Z.of_nat L)).

(** The outputs of the backbone with another tensor as final layer. *)
Definition with_last_hidden (outputs : Pooler.BertOutputs) (h : Hidden)
  : Pooler.BertOutputs :=
  {| Pooler.last_hidden_state := h;
     Pooler.pooler_output := Pooler.pooler_output outputs;
     Pooler.hidden_states := Pooler.hidden_states outputs |}.

(** A call of [forward] that leaves both argument tensors as they were. *)
Definition leaves_inputs_unchanged (N L : nat) (before after : Store)
    (input_ids attention_mask : loc) : Prop :=
  exists ids ids' mask mask',
    before !! input_ids = Some ids /\ after !! input_ids = Some ids' /\
    before !! attention_mask = Some mask /\ after !! attention_mask = Some mask' /\
    ids_eq N L ids' ids /\ ids_eq N L mask' mask.

(** The tensor a call of [forward] leaves behind [input_ids], and the store
    it leaves, when [input_ids] held [ids] before. *)
Definition corrupted (self : Encoder.t) (do_mlm : bool) (rand : nat -> nat -> Q)
    (ids : Ids) : Ids :=
  if do_mlm
  then Encoder.masked_fill_zero ids (Encoder.sentence_mask self rand ids)
  else ids.

Definition store_after (self : Encoder.t) (do_mlm : bool) (rand : nat -> nat -> Q)
    (input_ids : loc) (ids : Ids) (s : Store) : Store :=
  if do_mlm then <[input_ids := corrupted self do_mlm rand ids]> s else s.

(** The value a reference holds at one position, if the reference is live. *)
Definition stored_at (s : Store) (r : loc) (i j : nat) : option Z :=
  match s !! r with
  | Some t => Some (t i j)
  | None => None
  end.

(** ** A small concrete setting, for running the model *)

Module Sample.

(** A stand-in backbone: every layer repeats the token id in each hidden
    dimension. *)
Definition bert_model (input_ids attention_mask : Ids) : Pooler.BertOutputs :=
  let h : Hidden := fun i l _ => inject_Z (input_ids i l) in
  {| Pooler.last_hidden_state := h;
     Pooler.pooler_output := fun i _ => inject_Z (input_ids i 0%nat);
     Pooler.hidden_states := [h; h] |}.

(** A stand-in projection head: it doubles every finite entry. *)
Definition mlp_forward (net : MLPLayer.t) (x : Emb) : Emb :=
  fun i d => match x i d with Some q => Some (2 * q)%Q | None => None end.

Definition encoder (pooler_type : string) : Encoder.t :=
  {| Encoder.input_mask_rate := 1 # 10;
     Encoder.pooler_type := pooler_type;
     Encoder.pooler := {| Pooler.pooler_type := pooler_type |};
     Encoder.net := {| MLPLayer.net :=
                         [MLPLayer.Linear 768 768; MLPLayer.LayerNorm 768;
                          MLPLayer.Activation MLPLayer.GELU] |};
     Encoder.temp := 1 # 20;
     Encoder.hard_negative_weight := 0;
     Encoder.learning_rate := 3 # 100000;
     Encoder.weight_decay := 0 |}.

(** One example of four tokens, with its attention mask, as the caller
    holds them: [input_ids] behind reference 1, [attention_mask] behind
    reference 2. *)
Definition input_ids : Ids := ids_of_rows [[101; 7; 8; 102]%Z].
Definition attention_mask : Ids := ids_of_rows [[1; 1; 1; 1]%Z].
Definition caller_store : Store := <[1%positive := input_ids]> (<[2%positive := attention_mask]> ∅).

(** The uniform draws of one call, per position. *)
Definition rand : nat -> nat -> Q :=
  fun _ j => nth j [9 # 10; 1 # 2; 1 # 20; 9 # 10]%Q 0%Q.

(** A stand-in encoder for the evaluation step: the embedding of an
    example is its first token id followed by zeros; the batch has two
    examples. *)
Definition encode (input_ids attention_mask : Ids) : Matrix :=
  map (fun i : nat => fun d : nat =>
         if (d =? 0)%nat then IZR (input_ids i 0%nat) else 0%R)
      [0%nat; 1%nat].

Definition sim_mean (x y : Matrix) : R := 0%R.

Definition eval_batch : Evaluate.Batch :=
  {| Evaluate.anchor_input_ids := ids_of_rows [[3]; [4]]%Z;
     Evaluate.anchor_attention_mask := ids_of_rows [[1]; [1]]%Z;
     Evaluate.target_input_ids := ids_of_rows [[0]; [0]]%Z;
     Evaluate.target_attention_mask := ids_of_rows [[1]; [1]]%Z;
     Evaluate.labels := [1; 1]%Z |}.

(** Parameter names as [named_parameters] yields them, with a number
    standing for each parameter tensor. *)
Definition named_parameters : list (string * nat) :=
  [ ("bert_model.encoder.layer.0.output.dense.weight"%string, 0%nat);
    ("bert_model.encoder.layer.0.output.dense.bias"%string, 1%nat);
    ("bert_model.encoder.layer.0.output.LayerNorm.weight"%string, 2%nat);
    ("bert_model.encoder.layer.0.output.LayerNorm.bias"%string, 3%nat);
    ("net.net.0.weight"%string, 4%nat);
    ("net.net.0.bias"%string, 5%nat) ].

End Sample.

(** ** Training step *)

Module Training.

(** The tensors of one batch, as the references the data loader hands
    over; the [labels] entry is not read by the training step. *)
Record Batch : Type := {
  anchor_input_ids : loc;
  anchor_attention_mask : loc;
  target_input_ids : loc;
  target_attention_mask : loc
}.

(** A new tensor object. *)
Definition alloc (t : Ids) : M loc :=
  fun s => let r := fresh (dom s) in (Ok r, <[r := t]> s).

(** [x[index]] with an index tensor over the first axis: a new tensor
    whose row [i] is row [index[i]] of [x]. *)
Definition index_rows (x : loc) (index : nat -> nat) : M loc :=
  let* t := load x in
  alloc (fun i j => t (index i) j).

Section Model.
Variable L : nat.
Variable bert_model : Ids -> Ids -> Pooler.BertOutputs.
Variable mlp_forward : MLPLayer.t -> Emb -> Emb.

(** [self.loss_fn], the contrastive loss with the encoder's temperature
    and hard-negative weight. *)
Variable Loss : Type.
Variable loss_fn : Emb -> Emb -> Emb -> Loss.

(** [Encoder.training_step]; [rand_a], [rand_t] and [rand_n] are the draws
    of the three forward calls and [negative_index] is the permutation
    [torch.randperm] returns.  The value is the loss that is logged and
    returned. *)
Definition training_step (self : Encoder.t) (batch : Batch)
    (rand_a rand_t rand_n : nat -> nat -> Q) (negative_index : nat -> nat)
  : M Loss :=
  let* anchor_outputs :=
    Encoder.forward L bert_model mlp_forward self
      (anchor_input_ids batch) (anchor_attention_mask batch) true rand_a in
  let* target_outputs :=
    Encoder.forward L bert_model mlp_forward self
      (target_input_ids batch) (target_attention_mask batch) true rand_t in
  let* negative_input_ids := index_rows (anchor_input_ids batch) negative_index in
  let* negative_attention_mask :=
    index_rows (anchor_attention_mask batch) negative_index in
  let* negative_outputs :=
    Encoder.forward L bert_model mlp_forward self
      negative_input_ids negative_attention_mask true rand_n in
  ret (loss_fn anchor_outputs target_outputs negative_outputs).
End Model.

End Training.

(** ** The data module of [paraphrasegen/dataset.py] *)

Module DataModule.

(** A failed dictionary lookup, a list index out of range. *)
Inductive error : Type :=
  | KeyError (key : string)
  | IndexError.

(** [xs[i]] on a Python list, for an index that is not negative. *)
Definition list_get {V} (xs : list V) (i : nat) : error + V :=
  match nth_error xs i with
  | Some v => inr v
  | None => inl IndexError
  end.

Definition text_field_map : gmap string (list string) :=
  <["mrpc"%string := ["sentence1"; "sentence2"]%string]>
  (<["qqp"%string := ["question1"; "question2"]%string]>
  (<["paws"%string := ["sentence1"; "sentence2"]%string]> ∅)).

Definition dataset_args_map : gmap string (list string) :=
  <["mrpc"%string := ["glue"; "mrpc"]%string]>
  (<["qqp"%string := ["glue"; "qqp"]%string]>
  (<["paws"%string := ["paws"; "labeled_final"]%string]> ∅)).

Definition columns : list string :=
  ["anchor_input_ids"; "anchor_attention_mask"; "target_input_ids";
   "target_attention_mask"; "labels"]%string.

(** [d[key]] on a Python dict. *)
Definition dict_get {V} (d : gmap string V) (key : string) : error + V :=
  match d !! key with
  | Some v => inr v
  | None => inl (KeyError key)
  end.

Section Model.
(** A column of a batch of examples: texts, labels or token ids. *)
Variable Col : Type.

(** The pretrained tokenizer, called with [truncation=True]: texts,
    [max_length] and [padding] in, a dict of columns out. *)
Variable tokenizer : Col -> nat -> string -> gmap string Col.

Record t : Type := {
  model_name_or_path : string;
  task_name : string;
  max_seq_length : nat;
  padding : string;
  batch_size : nat;
  text_fields : list string;
  dataset_args : list string
}.

(** [CRLDataModule.__init__] *)
Definition init (model_name_or_path task_name : string) (max_seq_length : nat)
    (padding : string) (batch_size : nat) : error + t :=
  match dict_get text_field_map task_name with
  | inl e => inl e
  | inr text_fields =>
      match dict_get dataset_args_map task_name with
      | inl e => inl e
      | inr dataset_args =>
          inr {| model_name_or_path := model_name_or_path;
                 task_name := task_name;
                 max_seq_length := max_seq_length;
                 padding := padding;
                 batch_size := batch_size;
                 text_fields := text_fields;
                 dataset_args := dataset_args |}
      end
  end.

(** [for key, value in tokenized.items(): features[prefix + key] = value] *)
Definition add_prefixed (prefix : string) (tokenized features : gmap string Col)
  : gmap string Col :=
  map_fold (fun key value acc => <[String.append prefix key := value]> acc)
           features tokenized.

(** [CRLDataModule.convert_to_features] *)
Definition convert_to_features (self : t) (example_batch : gmap string Col)
  : error + gmap string Col :=
  match list_get (text_fields self) 0 with
  | inl e => inl e
  | inr anchor_field =>
  match dict_get example_batch anchor_field with
  | inl e => inl e
  | inr anchor_texts =>
      let tokenized_anchor :=
        tokenizer anchor_texts (max_seq_length self) (padding self) in
      match list_get (text_fields self) 1 with
      | inl e => inl e
      | inr target_field =>
      match dict_get example_batch target_field with
      | inl e => inl e
      | inr target_texts =>
          let tokenized_target :=
            tokenizer target_texts (max_seq_length self) (padding self) in
          let features := add_prefixed "anchor_" tokenized_anchor ∅ in
          let features := add_prefixed "target_" tokenized_target features in
          match dict_get example_batch "label" with
          | inl e => inl e
          | inr label => inr (<["labels"%string := label]> features)
          end
      end end
  end end.
End Model.

End DataModule.

(** ** A concrete training batch *)

Module SampleStep.

(** Two examples of three tokens; anchors behind reference 1, their mask
    behind 2, targets behind 3, their mask behind 4. *)
Definition batch : Training.Batch :=
  {| Training.anchor_input_ids := 1%positive;
     Training.anchor_attention_mask := 2%positive;
     Training.target_input_ids := 3%positive;
     Training.target_attention_mask := 4%positive |}.

Definition anchor_ids : Ids := ids_of_rows [[101; 7; 102]; [101; 8; 102]]%Z.
Definition target_ids : Ids := ids_of_rows [[101; 5; 102]; [101; 6; 102]]%Z.
Definition ones : Ids := ids_of_rows [[1; 1; 1]; [1; 1; 1]]%Z.

Definition caller_store : Store :=
  <[1%positive := anchor_ids]> (<[2%positive := ones]>
  (<[3%positive := target_ids]> (<[4%positive := ones]> ∅))).

(** Draws that corrupt the middle token of the first example only. *)
Definition rand : nat -> nat -> Q :=
  fun i j => if ((i =? 0) && (j =? 1))%nat then (1 # 2)%Q else (1 # 20)%Q.

(** The permutation that swaps the two examples. *)
Definition negative_index : nat -> nat :=
  fun i => match i with 0%nat => 1%nat | 1%nat => 0%nat | _ => i end.

Definition loss_fn (anchor target negative : Emb) : unit := tt.

End SampleStep.

(** ** A concrete batch of examples for the data module *)

Module SampleData.

(** Columns are numbers here; the stand-in tokenizer returns the two
    entries the encoder reads. *)
Definition tokenizer (texts : nat) (max_length : nat) (padding : string)
  : gmap string nat :=
  <["input_ids"%string := (texts + max_length)%nat]>
  (<["attention_mask"%string := texts]> ∅).

Definition data_module : DataModule.t :=
  {| DataModule.model_name_or_path := "roberta-base";
     DataModule.task_name := "qqp";
     DataModule.max_seq_length := 32;
     DataModule.padding := "max_length";
     DataModule.batch_size := 32;
     DataModule.text_fields := ["question1"; "question2"]%string;
     DataModule.dataset_args := ["glue"; "qqp"]%string |}.

Definition example_batch : gmap string nat :=
  <["question1"%string := 10%nat]> (<["question2"%string := 20%nat]>
  (<["label"%string := 1%nat]> ∅)).

End SampleData.

(** ** Encoders with other corruption rates *)

Module SampleRates.

(** The sample [avg] encoder with another [input_mask_rate]. *)
Definition encoder (rate : Q) : Encoder.t :=
  {| Encoder.input_mask_rate := rate;
     Encoder.pooler_type := "avg";
     Encoder.pooler := {| Pooler.pooler_type := "avg" |};
     Encoder.net := Encoder.net (Sample.encoder "avg");
     Encoder.temp := 1 # 20;
     Encoder.hard_negative_weight := 0;
     Encoder.learning_rate := 3 # 100000;
     Encoder.weight_decay := 0 |}.

End SampleRates.

(** ** Further reference notions *)

(** The width a stack of layers delivers for inputs of width [w], when
    every layer fits the width it receives. *)
Fixpoint out_width (w : nat) (net : list MLPLayer.layer) : option nat :=
  match net with
  | [] => Some w
  | MLPLayer.Linear i o :: net' =>
      if (i =? w)%nat then out_width o net' else None
  | MLPLayer.LayerNorm d :: net' =>
      if (d =? w)%nat then out_width w net' else None
  | MLPLayer.Activation _ :: net' => out_width w net'
  end.

(** The anchor and target rows that carry the label [lab], paired. *)
Definition picked (anchors targets : Matrix) (labels : list Z) (lab : Z)
  : list (Row * Row) :=
  map fst (List.filter (fun p : Row * Row * Z => (snd p =? lab)%Z)
                       (combine (combine anchors targets) labels)).

(** Substring, spelled out: [nd] sits between some prefix and suffix. *)
Definition occurs_in (nd n : string) : Prop :=
  exists pre post, n = String.append pre (String.append nd post).

(** * Properties *)

(** ** Sums and float division *)

Lemma Qsum_ext (f g : nat -> Q) (n : nat) :
  (forall l, (l < n)%nat -> (f l == g l)%Q) -> (Qsum f n == Qsum g n)%Q.
Proof.
  induction n as [|n IH]; intros Hfg; simpl.
  - reflexivity.
  - rewrite IH by (intros l Hl; apply Hfg; lia).
    rewrite (Hfg n) by lia. reflexivity.
Qed.

Lemma Qsum_zero (f : nat -> Q) (n : nat) :
  (forall l, (l < n)%nat -> (f l == 0)%Q) -> (Qsum f n == 0)%Q.
Proof.
  induction n as [|n IH]; intros Hf; simpl.
  - reflexivity.
  - rewrite IH by (intros l Hl; apply Hf; lia).
    rewrite (Hf n) by lia. reflexivity.
Qed.

Lemma Qsum_single (f : nat -> Q) (n k : nat) :
  (k < n)%nat ->
  (forall l, (l < n)%nat -> l <> k -> (f l == 0)%Q) ->
  (Qsum f n == f k)%Q.
Proof.
  induction n as [|n IH]; intros Hk Hf; [lia|]. simpl.
  destruct (Nat.eq_dec k n) as [-> | Hne].
  - rewrite Qsum_zero by (intros l Hl; apply Hf; lia). ring.
  - rewrite IH by (try lia; intros l Hl Hlk; apply Hf; lia).
    rewrite (Hf n) by lia. ring.
Qed.

Lemma Zsum_ones (m : nat -> Z) (n : nat) :
  (forall l, (l < n)%nat -> m l = 1%Z) -> Zsum m n = Z.of_nat n.
Proof.
  induction n as [|n IH]; intros Hm; simpl Zsum.
  - reflexivity.
  - rewrite IH by (intros l Hl; apply Hm; lia). rewrite (Hm n) by lia. lia.
Qed.

Lemma Zsum_zero (m : nat -> Z) (n : nat) :
  (forall l, (l < n)%nat -> m l = 0%Z) -> Zsum m n = 0%Z.
Proof.
  induction n as [|n IH]; intros Hm; simpl Zsum.
  - reflexivity.
  - rewrite IH by (intros l Hl; apply Hm; lia). rewrite (Hm n) by lia. lia.
Qed.

Lemma Zsum_single (m : nat -> Z) (n k : nat) :
  (k < n)%nat ->
  (forall l, (l < n)%nat -> l <> k -> m l = 0%Z) ->
  Zsum m n = m k.
Proof.
  induction n as [|n IH]; intros Hk Hm; [lia|]. simpl Zsum.
  destruct (Nat.eq_dec k n) as [-> | Hne].
  - rewrite Zsum_zero by (intros l Hl; apply Hm; lia). lia.
  - rewrite IH by (try lia; intros l Hl Hlk; apply Hm; lia).
    rewrite (Hm n) by lia. lia.
Qed.

Lemma fdiv_proper (x x' y y' : Q) :
  (x == x')%Q -> (y == y')%Q -> fl_eq (fdiv x y) (fdiv x' y').
Proof.
  intros Hx Hy. unfold fdiv.
  destruct (Qeq_bool y 0) eqn:E; destruct (Qeq_bool y' 0) eqn:E'; simpl.
  - exact I.
  - apply Qeq_bool_iff in E. apply Qeq_bool_neq in E'. apply E'.
    rewrite <- Hy. exact E.
  - apply Qeq_bool_iff in E'. apply Qeq_bool_neq in E. apply E.
    rewrite Hy. exact E'.
  - rewrite Hx, Hy. reflexivity.
Qed.

Lemma fdiv_one (x : Q) : fl_eq (fdiv x 1) (Some x).
Proof. unfold fdiv. simpl. field. Qed.

Lemma fl_eq_refl (x : fl) : fl_eq x x.
Proof. destruct x; simpl; [reflexivity | exact I]. Qed.

Lemma fl_eq_trans (x y z : fl) : fl_eq x y -> fl_eq y z -> fl_eq x z.
Proof.
  destruct x, y, z; simpl; try tauto. intros H1 H2. rewrite H1. exact H2.
Qed.

(** ** Pooler *)

Module PoolerFacts.
Import Pooler.

Lemma py_in_recognized (ty : string) :
  py_in ty recognized = true ->
  ty = "cls"%string \/ ty = "cls_before_pooler"%string \/ ty = "avg"%string \/
  ty = "avg_top2"%string \/ ty = "avg_first_last"%string.
Proof.
  unfold py_in, recognized. simpl. rewrite !orb_true_iff, !String.eqb_eq.
  intuition discriminate.
Qed.

Lemma init_ok (ty : string) (p : t) :
  init ty = Ok p -> py_in ty recognized = true /\ pooler_type p = ty.
Proof.
  unfold init. destruct (py_in ty recognized); [|discriminate].
  intros [= <-]. split; reflexivity.
Qed.

(** The [avg] branch is the masked mean of the final layer. *)
Lemma forward_avg (L : nat) (self : t) (mask : Ids) (outputs : BertOutputs) :
  pooler_type self = "avg"%string ->
  forward L self mask outputs = Ok (masked_mean L (last_hidden_state outputs) mask).
Proof. intros E. unfold forward. rewrite E. reflexivity. Qed.

(** Pointwise equal layers have equal masked means. *)
Lemma masked_mean_proper (N L D : nat) (a b : Hidden) (mask : Ids) :
  hidden_eq N L D a b -> emb_eq N D (masked_mean L a mask) (masked_mean L b mask).
Proof.
  intros Hab i d Hi Hd. unfold masked_mean. apply fdiv_proper; [|reflexivity].
  apply Qsum_ext. intros l Hl. rewrite (Hab i l d Hi Hl Hd). reflexivity.
Qed.

(** C10: a pooler that was constructed never takes the final [raise
    NotImplementedError] branch of [forward]; whatever the attention mask
    and the backbone outputs, one of the five variant branches handles the
    call. *)
Theorem forward_never_not_implemented (L : nat) (ty : string) (self : t)
    (mask : Ids) (outputs : BertOutputs) :
  init ty = Ok self ->
  forward L self mask outputs <> Err NotImplementedError.
Proof.
  intros Hinit. apply init_ok in Hinit as [Hin Hty].
  apply py_in_recognized in Hin. unfold forward. rewrite Hty.
  destruct Hin as [-> | [-> | [-> | [-> | ->]]]]; simpl.
  - destruct (L =? 0)%nat; discriminate.
  - destruct (L =? 0)%nat; discriminate.
  - discriminate.
  - destruct (py_index (hidden_states outputs) (-2)) as [?|e] eqn:E2.
    + destruct (py_index (hidden_states outputs) (-1)) as [?|e] eqn:E1;
        [discriminate|].
      unfold py_index in E1. repeat case_match; congruence.
    + unfold py_index in E2. repeat case_match; congruence.
  - destruct (py_index (hidden_states outputs) 0) as [?|e] eqn:E0.
    + destruct (py_index (hidden_states outputs) (-1)) as [?|e] eqn:E1;
        [discriminate|].
      unfold py_index in E1. repeat case_match; congruence.
    + unfold py_index in E0. repeat case_match; congruence.
Qed.

Lemma forward_never_not_implemented_witness :
  init "avg_top2" = Ok {| pooler_type := "avg_top2" |} /\
  forward 2 {| pooler_type := "avg_top2" |} (ids_of_rows [[1; 1]%Z])
    {| last_hidden_state := hidden_of_rows [[[1#2]; [3#2]]]%Q;
       pooler_output := fun _ _ => 0%Q;
       hidden_states := [hidden_of_rows [[[1#2]; [3#2]]]%Q] |}
  <> Err NotImplementedError.
Proof.
  split; [reflexivity|].
  apply (forward_never_not_implemented 2 "avg_top2"). reflexivity.
Defined.

(** C5: with the [avg] variant, an all-ones attention mask gives the
    unweighted mean of the [L] token vectors of each example, and a row
    whose mask has exactly one unmasked position [k] gives the hidden state
    at position [k]. *)
Theorem avg_pooling_mean_and_single (N L D : nat) (self : t) (mask : Ids)
    (outputs : BertOutputs) :
  pooler_type self = "avg"%string ->
  ((forall i l, (i < N)%nat -> (l < L)%nat -> mask i l = 1%Z) ->
   res_emb_eq N D (forward L self mask outputs)
              (Ok (unweighted_mean L (last_hidden_state outputs))))
  /\
  (forall i k, (i < N)%nat -> (k < L)%nat ->
     mask i k = 1%Z ->
     (forall l, (l < L)%nat -> l <> k -> mask i l = 0%Z) ->
     exists e, forward L self mask outputs = Ok e /\
       forall d, (d < D)%nat ->
         fl_eq (e i d) (Some (last_hidden_state outputs i k d))).
Proof.
  intros Havg. rewrite (forward_avg L self mask outputs Havg). split.
  - intros Hones i d Hi Hd. unfold masked_mean, unweighted_mean.
    apply fdiv_proper.
    + apply Qsum_ext. intros l Hl. rewrite (Hones i l Hi Hl). simpl. ring.
    + rewrite (Zsum_ones (fun l => mask i l) L) by (intros l Hl; auto).
      reflexivity.
  - intros i k Hi Hk Hone Hzero. eexists. split; [reflexivity|].
    intros d Hd. unfold masked_mean.
    eapply fl_eq_trans; [|apply fdiv_one]. apply fdiv_proper.
    + rewrite (Qsum_single _ L k Hk).
      * rewrite Hone. simpl. ring.
      * intros l Hl Hlk. rewrite (Hzero l Hl Hlk). simpl. ring.
    + rewrite (Zsum_single (fun l => mask i l) L k Hk Hzero), Hone.
      reflexivity.
Qed.

Lemma avg_pooling_mean_and_single_witness :
  let h := hidden_of_rows [[[1#2; 3]; [5#2; -1]; [3; 4]]]%Q in
  let outputs := {| last_hidden_state := h; pooler_output := fun _ _ => 0%Q;
                    hidden_states := [h] |} in
  let self := {| pooler_type := "avg" |} in
  res_emb_eq 1 2 (forward 3 self (ids_of_rows [[1; 1; 1]%Z]) outputs)
             (Ok (unweighted_mean 3 h))
  /\ exists e, forward 3 self (ids_of_rows [[0; 1; 0]%Z]) outputs = Ok e /\
       forall d, (d < 2)%nat -> fl_eq (e 0%nat d) (Some (h 0%nat 1%nat d)).
Proof.
  intros h outputs self. split.
  - apply (avg_pooling_mean_and_single 1 3 2 self (ids_of_rows [[1; 1; 1]%Z])
             outputs eq_refl).
    intros i l Hi Hl.
    destruct i as [|i]; [|lia].
    destruct l as [|[|[|l]]]; [reflexivity | reflexivity | reflexivity | lia].
  - apply (proj2 (avg_pooling_mean_and_single 1 3 2 self
                    (ids_of_rows [[0; 1; 0]%Z]) outputs eq_refl) 0%nat 1%nat);
      [lia | lia | reflexivity |].
    intros l Hl Hne.
    destruct l as [|[|[|l]]]; [reflexivity | congruence | reflexivity | lia].
Defined.

(** C6: when the last two layers are equal, [avg_top2] gives the [avg]
    result of that layer; when the first and the last layer are equal,
    [avg_first_last] gives the [avg] result of that layer. *)
Theorem avg_two_layers_reduce_to_avg (N L D : nat) (mask : Ids)
    (outputs : BertOutputs) (x y : Hidden) :
  hidden_eq N L D x y ->
  (py_index (hidden_states outputs) (-1) = Ok x ->
   py_index (hidden_states outputs) (-2) = Ok y ->
   res_emb_eq N D
     (forward L {| pooler_type := "avg_top2" |} mask outputs)
     (forward L {| pooler_type := "avg" |} mask (with_last_hidden outputs x)))
  /\
  (py_index (hidden_states outputs) (-1) = Ok x ->
   py_index (hidden_states outputs) 0 = Ok y ->
   res_emb_eq N D
     (forward L {| pooler_type := "avg_first_last" |} mask outputs)
     (forward L {| pooler_type := "avg" |} mask (with_last_hidden outputs x))).
Proof.
  intros Hxy. split; intros Hx Hy; unfold forward; simpl; rewrite Hx, Hy; simpl.
  - intros i d Hi Hd. apply (masked_mean_proper N L D); [|assumption..].
    intros i' l' d' Hi' Hl' Hd'. unfold half_sum.
    rewrite <- (Hxy i' l' d' Hi' Hl' Hd'). field.
  - intros i d Hi Hd. apply (masked_mean_proper N L D); [|assumption..].
    intros i' l' d' Hi' Hl' Hd'. unfold half_sum.
    rewrite <- (Hxy i' l' d' Hi' Hl' Hd'). field.
Qed.

Lemma avg_two_layers_reduce_to_avg_witness :
  let x := hidden_of_rows [[[1#2; 3]; [5#2; -1]]]%Q in
  let outputs := {| last_hidden_state := x; pooler_output := fun _ _ => 0%Q;
                    hidden_states := [x; x] |} in
  let mask := ids_of_rows [[1; 0]%Z] in
  res_emb_eq 1 2
    (forward 2 {| pooler_type := "avg_top2" |} mask outputs)
    (forward 2 {| pooler_type := "avg" |} mask (with_last_hidden outputs x))
  /\
  res_emb_eq 1 2
    (forward 2 {| pooler_type := "avg_first_last" |} mask outputs)
    (forward 2 {| pooler_type := "avg" |} mask (with_last_hidden outputs x)).
Proof.
  intros x outputs mask.
  assert (Hxx : hidden_eq 1 2 2 x x) by (intros i l d _ _ _; reflexivity).
  split.
  - apply (proj1 (avg_two_layers_reduce_to_avg 1 2 2 mask outputs x x Hxx));
      reflexivity.
  - apply (proj2 (avg_two_layers_reduce_to_avg 1 2 2 mask outputs x x Hxx));
      reflexivity.
Defined.

End PoolerFacts.

(** ** MLPLayer *)

Module MLPLayerFacts.
Import MLPLayer.

Lemma select_activation_unrecognized (activation : string) :
  py_in activation recognized = false -> select_activation activation = None.
Proof.
  unfold py_in, recognized, select_activation. simpl.
  rewrite !orb_false_iff. intros (-> & -> & -> & -> & _). reflexivity.
Qed.

(** With an unrecognized activation name the constructor never returns a
    projection head, whatever the widths. *)
Lemma init_unrecognized_fails (in_dims : nat) (hidden_dims : list nat)
    (activation : string) :
  py_in activation recognized = false ->
  is_ok (init in_dims hidden_dims activation) = false.
Proof.
  intros H. unfold init. rewrite (select_activation_unrecognized _ H).
  destruct hidden_dims; reflexivity.
Qed.

(** The pooler, in contrast, names the offending value in its error. *)
Lemma pooler_init_unrecognized (ty : string) :
  py_in ty Pooler.recognized = false ->
  Pooler.init ty = Err (AssertionError ("unrecognized_pooling_type: " ++ ty)).
Proof. intros H. unfold Pooler.init. rewrite H. reflexivity. Qed.

(** C7: constructing the projection head with the unrecognized activation
    name [tanh] fails, but with the error of reading the local variable
    [activation_fn] that no branch bound, and with an empty width list an
    index error comes first; neither error mentions the activation name.
    The pooler built with an unrecognized strategy name fails with an
    assertion whose message carries that name. *)
Theorem init_unrecognized_activation_error :
  init 768 [768%nat] "tanh" = Err (UnboundLocalError "activation_fn") /\
  init 768 [] "tanh" = Err IndexError /\
  Pooler.init "tanh" = Err (AssertionError "unrecognized_pooling_type: tanh").
Proof. repeat split. Qed.

End MLPLayerFacts.

(** ** Encoder.forward *)

Module EncoderFacts.
Import Encoder.

Section Forward.
Variable L : nat.
Variable bert_model : Ids -> Ids -> Pooler.BertOutputs.
Variable mlp_forward : MLPLayer.t -> Emb -> Emb.

Local Abbreviation fwd := (forward L bert_model mlp_forward).

Lemma sentence_mask_true (self : t) (rand : nat -> nat -> Q) (ids : Ids) (i j : nat) :
  sentence_mask self rand ids i j = true <->
  (input_mask_rate self < rand i j)%Q /\ ids i j <> 101%Z /\ ids i j <> 102%Z.
Proof.
  unfold sentence_mask. rewrite !andb_true_iff, !negb_true_iff.
  rewrite !Z.eqb_neq. rewrite <- not_true_iff_false, Qle_bool_iff.
  split.
  - intros [[H1 H2] H3]. repeat split; try assumption.
    apply Qnot_le_lt. exact H1.
  - intros [H1 [H2 H3]]. repeat split; try assumption.
    apply Qlt_not_le. exact H1.
Qed.

(** A position holding a boundary id keeps it. *)
Lemma boundary_ids_kept (self : t) (rand : nat -> nat -> Q) (ids : Ids) (i j : nat) :
  ids i j = 101%Z \/ ids i j = 102%Z ->
  masked_fill_zero ids (sentence_mask self rand ids) i j = ids i j.
Proof.
  intros H. unfold masked_fill_zero.
  destruct (sentence_mask self rand ids i j) eqn:E; [|reflexivity].
  apply sentence_mask_true in E. lia.
Qed.

(** What one call does, step by step. *)
Lemma forward_run (self : t) (input_ids attention_mask : loc) (do_mlm : bool)
    (rand : nat -> nat -> Q) (s : Store) (ids : Ids) :
  s !! input_ids = Some ids ->
  let s' := store_after self do_mlm rand input_ids ids s in
  let ids' := corrupted self do_mlm rand ids in
  s' !! input_ids = Some ids' /\
  fwd self input_ids attention_mask do_mlm rand s =
    match s' !! attention_mask with
    | None => (Err InvalidReference, s')
    | Some mask =>
        let pooled :=
          Pooler.forward L (pooler self) mask (bert_model ids' mask) in
        (if (pooler_type self =? "cls")%string
         then result_map (mlp_forward (net self)) pooled
         else pooled, s')
    end.
Proof.
  intros Hids s' ids'. subst s' ids'.
  unfold forward, store_after, corrupted, bind, load, store, lift, ret.
  destruct do_mlm; cbv beta.
  - rewrite !Hids. rewrite lookup_insert_eq. split; [reflexivity|].
    destruct (<[input_ids:=_]> s !! attention_mask) as [mask|]; [|reflexivity].
    destruct (Pooler.forward _ _ _ _); simpl;
      destruct (pooler_type self =? "cls")%string; reflexivity.
  - rewrite Hids. split; [reflexivity|].
    destruct (s !! attention_mask) as [mask|]; [|reflexivity].
    destruct (Pooler.forward _ _ _ _); simpl;
      destruct (pooler_type self =? "cls")%string; reflexivity.
Qed.

Lemma forward_final_store (self : t) (input_ids attention_mask : loc)
    (do_mlm : bool) (rand : nat -> nat -> Q) (s : Store) (ids : Ids) :
  s !! input_ids = Some ids ->
  snd (fwd self input_ids attention_mask do_mlm rand s) =
  store_after self do_mlm rand input_ids ids s.
Proof.
  intros Hids.
  destruct (forward_run self input_ids attention_mask do_mlm rand s ids Hids)
    as [_ ->].
  destruct (store_after _ _ _ _ _ _ !! attention_mask); reflexivity.
Qed.
Lemma store_after_lookup_ne (self : t) (do_mlm : bool) (rand : nat -> nat -> Q)
  (input_ids r : loc) (ids : Ids) (s : Store) :
r <> input_ids ->
store_after self do_mlm rand input_ids ids s !! r = s !! r.
Proof.
intros Hne. unfold store_after. destruct do_mlm; [|reflexivity].
apply lookup_insert_ne. congruence.
Qed.

(** C4: [forward] passes the pooled embedding through the projection head
  when the pooling variant is [cls], and returns the pooler's output as
  it is for [cls_before_pooler], [avg], [avg_top2] and [avg_first_last];
  the pooler is run on the attention mask and on the backbone's outputs
  for the tensors the two references hold after the optional
  corruption. *)
Theorem projection_head_only_for_cls (self : t) (input_ids attention_mask : loc)
  (do_mlm : bool) (rand : nat -> nat -> Q) (s : Store) :
is_Some (s !! input_ids) ->
is_Some (s !! attention_mask) ->
exists ids mask s',
  s' !! input_ids = Some ids /\ s' !! attention_mask = Some mask /\
  let pooled := Pooler.forward L (pooler self) mask (bert_model ids mask) in
  (pooler_type self = "cls"%string ->
   fwd self input_ids attention_mask do_mlm rand s
   = (result_map (mlp_forward (net self)) pooled, s')) /\
  (In (pooler_type self)
      ["cls_before_pooler"; "avg"; "avg_top2"; "avg_first_last"]%string ->
   fwd self input_ids attention_mask do_mlm rand s = (pooled, s')).
Proof.
intros [ids0 Hids] [mask0 Hmask].
destruct (forward_run self input_ids attention_mask do_mlm rand s ids0 Hids)
  as [Hids' Hrun].
set (s' := store_after self do_mlm rand input_ids ids0 s) in *.
assert (Hm : is_Some (s' !! attention_mask)).
{ destruct (decide (attention_mask = input_ids)) as [-> | Hne].
  - rewrite Hids'. eauto.
  - subst s'. rewrite store_after_lookup_ne by assumption. eauto. }
destruct Hm as [mask Hm]. rewrite Hm in Hrun.
exists (corrupted self do_mlm rand ids0), mask, s'.
split; [assumption|]. split; [assumption|]. cbv zeta. split.
- intros Hcls. rewrite Hrun, Hcls. reflexivity.
- intros Hin. rewrite Hrun.
  replace (pooler_type self =? "cls")%string with false; [reflexivity|].
  simpl in Hin.
  destruct Hin as [<- | [<- | [<- | [<- | []]]]]; reflexivity.
Qed.

(** C1: with the rate 1/10, the ids [[101; 7; 8; 102]] and the draws
  [[9/10; 1/2; 1/20; 9/10]], the call with corruption enabled leaves
  [[101; 0; 8; 102]] behind [input_ids]: the position whose draw 1/2 is
  not below the rate is zeroed, the position whose draw 1/20 is below the
  rate keeps its id, and the two boundary ids are kept. *)
Theorem corruption_zeroes_draws_above_rate :
let self := Sample.encoder "avg" in
let s' := snd (fwd self 1%positive 2%positive true Sample.rand Sample.caller_store) in
input_mask_rate self == 1 # 10 /\
~ (Sample.rand 0%nat 1%nat < input_mask_rate self)%Q /\
stored_at Sample.caller_store 1%positive 0%nat 1%nat = Some 7%Z /\
stored_at s' 1%positive 0%nat 1%nat = Some 0%Z /\
(Sample.rand 0%nat 2%nat < input_mask_rate self)%Q /\
stored_at Sample.caller_store 1%positive 0%nat 2%nat = Some 8%Z /\
stored_at s' 1%positive 0%nat 2%nat = Some 8%Z /\
stored_at s' 1%positive 0%nat 0%nat = Some 101%Z /\
stored_at s' 1%positive 0%nat 3%nat = Some 102%Z.
Proof.
intros self s'. subst s'.
rewrite (forward_final_store self 1%positive 2%positive true Sample.rand
           Sample.caller_store Sample.input_ids eq_refl).
repeat split; try reflexivity.
intros H. vm_compute in H. discriminate.
Qed.

(** C3, as amended: a call of [forward] changes no tensor but the one
  behind [input_ids]; the attention mask, a different tensor, keeps its
  values; with corruption disabled nothing changes at all; with
  corruption enabled each position of [input_ids] keeps its id or, only
  when that id is neither 101 nor 102, is overwritten with 0. *)
Theorem forward_writes_only_input_ids (self : t) (input_ids attention_mask : loc)
  (do_mlm : bool) (rand : nat -> nat -> Q) (s : Store) (ids mask : Ids) :
s !! input_ids = Some ids ->
s !! attention_mask = Some mask ->
attention_mask <> input_ids ->
let s' := snd (fwd self input_ids attention_mask do_mlm rand s) in
s' !! attention_mask = Some mask /\
(forall r, r <> input_ids -> s' !! r = s !! r) /\
(do_mlm = false -> s' = s) /\
(do_mlm = true ->
 exists ids', s' !! input_ids = Some ids' /\
   forall i j, ids' i j = ids i j \/
               (ids' i j = 0%Z /\ ids i j <> 101%Z /\ ids i j <> 102%Z)).
Proof.
intros Hids Hmask Hne s'. subst s'.
rewrite (forward_final_store self input_ids attention_mask do_mlm rand s ids Hids).
split; [|split; [|split]].
- rewrite store_after_lookup_ne by assumption. assumption.
- intros r Hr. apply store_after_lookup_ne. assumption.
- intros ->. reflexivity.
- intros ->. unfold store_after. eexists. split; [apply lookup_insert_eq|].
  intros i j. unfold corrupted, masked_fill_zero.
  destruct (sentence_mask self rand ids i j) eqn:E; [right | left; reflexivity].
  apply sentence_mask_true in E. tauto.
Qed.

End Forward.

Lemma projection_head_only_for_cls_witness :
  let self := Sample.encoder "cls" in
  exists ids mask s',
    s' !! 1%positive = Some ids /\ s' !! 2%positive = Some mask /\
    let pooled :=
      Pooler.forward 4 (pooler self) mask (Sample.bert_model ids mask) in
    (pooler_type self = "cls"%string ->
     forward 4 Sample.bert_model Sample.mlp_forward self 1%positive 2%positive
       false Sample.rand Sample.caller_store
     = (result_map (Sample.mlp_forward (net self)) pooled, s')) /\
    (In (pooler_type self)
        ["cls_before_pooler"; "avg"; "avg_top2"; "avg_first_last"]%string ->
     forward 4 Sample.bert_model Sample.mlp_forward self 1%positive 2%positive
       false Sample.rand Sample.caller_store = (pooled, s')).
Proof.
  intros self.
  apply (projection_head_only_for_cls 4 Sample.bert_model Sample.mlp_forward
           self 1%positive 2%positive false Sample.rand Sample.caller_store).
  - exists Sample.input_ids. reflexivity.
  - exists Sample.attention_mask. reflexivity.
Defined.

(** C3, as stated, fails: after the call with corruption enabled the
    caller's [input_ids] no longer holds the values it held before. *)
Lemma forward_overwrites_caller_input_ids :
  ~ leaves_inputs_unchanged 1 4 Sample.caller_store
      (snd (forward 4 Sample.bert_model Sample.mlp_forward (Sample.encoder "avg")
              1%positive 2%positive true Sample.rand Sample.caller_store))
      1%positive 2%positive.
Proof.
  rewrite (forward_final_store 4 Sample.bert_model Sample.mlp_forward
             (Sample.encoder "avg") 1%positive 2%positive true Sample.rand
             Sample.caller_store Sample.input_ids eq_refl).
  intros (ids & ids' & mask & mask' & Hb & Ha & _ & _ & Heq & _).
  unfold store_after in Ha. rewrite lookup_insert_eq in Ha.
  assert (Hb' : Some Sample.input_ids = Some ids)
    by (rewrite <- Hb; reflexivity).
  injection Hb' as <-. injection Ha as <-.
  specialize (Heq 0%nat 1%nat ltac:(lia) ltac:(lia)).
  vm_compute in Heq. discriminate.
Qed.

Lemma forward_writes_only_input_ids_witness :
  let s' := snd (forward 4 Sample.bert_model Sample.mlp_forward
                   (Sample.encoder "avg") 1%positive 2%positive true Sample.rand
                   Sample.caller_store) in
  s' !! 2%positive = Some Sample.attention_mask /\
  (forall r, r <> 1%positive -> s' !! r = Sample.caller_store !! r) /\
  (true = false -> s' = Sample.caller_store) /\
  (true = true ->
   exists ids', s' !! 1%positive = Some ids' /\
     forall i j, ids' i j = Sample.input_ids i j \/
                 (ids' i j = 0%Z /\ Sample.input_ids i j <> 101%Z /\
                  Sample.input_ids i j <> 102%Z)).
Proof.
  apply (forward_writes_only_input_ids 4 Sample.bert_model Sample.mlp_forward
           (Sample.encoder "avg") 1%positive 2%positive true Sample.rand
           Sample.caller_store Sample.input_ids Sample.attention_mask).
  - reflexivity.
  - reflexivity.
  - discriminate.
Defined.

End EncoderFacts.

(** ** Optimizer configuration *)

Module OptimizerFacts.
Import Optimizer.

Lemma filter_split_perm {A} (f : A -> bool) (l : list A) :
  Permutation (List.filter (fun x => negb (f x)) l ++ List.filter f l) l.
Proof.
  induction l as [|x l IH]; simpl.
  - constructor.
  - destruct (f x); simpl.
    + apply Permutation_sym, Permutation_cons_app, Permutation_sym, IH.
    + constructor. exact IH.
Qed.

Lemma NoDup_snd_functional {A B} (l : list (A * B)) (a a' : A) (b : B) :
  List.NoDup (map snd l) -> In (a, b) l -> In (a', b) l -> a = a'.
Proof.
  induction l as [|[x y] l IH]; simpl; intros Hnd H1 H2; [contradiction|].
  apply List.NoDup_cons_iff in Hnd as [Hnot Hnd].
  destruct H1 as [H1 | H1], H2 as [H2 | H2].
  - congruence.
  - exfalso. apply Hnot. apply (in_map snd) in H2. simpl in H2. congruence.
  - exfalso. apply Hnot. apply (in_map snd) in H1. simpl in H1. congruence.
  - apply IH; assumption.
Qed.

Example marker_bias :
  any_no_decay "bert_model.encoder.layer.0.output.dense.bias" = true.
Proof. reflexivity. Qed.

Example marker_layer_norm_weight :
  any_no_decay "bert_model.encoder.layer.0.output.LayerNorm.weight" = true.
Proof. reflexivity. Qed.

Example marker_absent :
  any_no_decay "bert_model.encoder.layer.0.output.dense.weight" = false.
Proof. reflexivity. Qed.

(** The scale of a normalization layer inside the projection head is named
    by its position in the [nn.Sequential], so it carries no marker. *)
Example marker_absent_in_projection_head :
  any_no_decay "net.net.1.weight" = false.
Proof. reflexivity. Qed.

Lemma append_cons (c : Ascii.ascii) (a post : string) :
  String.append (String c a) post = String c (String.append a post).
Proof. reflexivity. Qed.

Lemma prefix_spec (a b : string) :
  String.prefix a b = true <-> exists post, b = String.append a post.
Proof.
  revert b. induction a as [|c a IH]; intros b.
  - split; [intros _; exists b; reflexivity | intros _; destruct b; reflexivity].
  - destruct b as [|c' b]; simpl.
    + split; [discriminate | intros [post H]; rewrite append_cons in H;
                             discriminate].
    + destruct (Ascii.ascii_dec c c') as [-> | Hne].
      * rewrite IH. split; intros [post H]; exists post.
        -- rewrite H, append_cons. reflexivity.
        -- rewrite append_cons in H. injection H as H. exact H.
      * split; [discriminate |].
        intros [post H]. rewrite append_cons in H. injection H as H _.
        congruence.
Qed.

Lemma str_in_unfold (nd n : string) :
  str_in nd n
  = if String.prefix nd n then true
    else match n with
         | EmptyString => false
         | String _ n' => str_in nd n'
         end.
Proof. destruct n; reflexivity. Qed.

Lemma str_in_spec (nd n : string) : str_in nd n = true <-> occurs_in nd n.
Proof.
  unfold occurs_in. split.
  - induction n as [|c n IH]; rewrite str_in_unfold.
    + destruct (String.prefix nd "") eqn:E; [|intros H; discriminate H].
      intros _. apply prefix_spec in E as [post E].
      exists ""%string, post. exact E.
    + destruct (String.prefix nd (String c n)) eqn:E.
      * intros _. apply prefix_spec in E as [post E].
        exists ""%string, post. exact E.
      * intros H. destruct (IH H) as (pre & post & ->).
        exists (String c pre), post. reflexivity.
  - intros (pre & post & ->). induction pre as [|c pre IH].
    + rewrite str_in_unfold.
      change (String.append "" (String.append nd post))
        with (String.append nd post).
      replace (String.prefix nd (String.append nd post)) with true;
        [reflexivity|].
      symmetry. apply prefix_spec. eauto.
    + rewrite str_in_unfold, append_cons, IH.
      destruct (String.prefix nd _); reflexivity.
Qed.

(** The code's test on a name, spelled out: one of the two markers occurs
    somewhere in it. *)
Lemma any_no_decay_spec (n : string) :
  any_no_decay n = true <->
  occurs_in "bias" n \/ occurs_in "LayerNorm.weight" n.
Proof.
  unfold any_no_decay, no_decay. simpl.
  rewrite !orb_true_iff, !str_in_spec. split.
  - intros [H | [H | H]]; [left | right | discriminate]; exact H.
  - intros [H | H]; [left | right; left]; exact H.
Qed.

(** C8: the optimizer gets exactly two parameter groups, the first with
    the configured weight decay and the second with weight decay 0; together
    they hold every named parameter once; a parameter in whose name [bias]
    or [LayerNorm.weight] occurs is in the second group and not in the
    first, and every other parameter is in the first group and not in the
    second. *)
Theorem parameter_groups_partition (Param : Type)
    (named_parameters : list (string * Param)) (weight_decay learning_rate : Q) :
  List.NoDup (map snd named_parameters) ->
  exists g_decay g_no_decay,
    param_groups Param
      (configure_optimizers Param named_parameters weight_decay learning_rate)
    = [g_decay; g_no_decay] /\
    group_weight_decay Param g_decay = weight_decay /\
    group_weight_decay Param g_no_decay = 0%Q /\
    Permutation (params Param g_decay ++ params Param g_no_decay)
                (map snd named_parameters) /\
    forall n p, In (n, p) named_parameters ->
      (occurs_in "bias" n \/ occurs_in "LayerNorm.weight" n ->
       In p (params Param g_no_decay) /\ ~ In p (params Param g_decay)) /\
      (~ (occurs_in "bias" n \/ occurs_in "LayerNorm.weight" n) ->
       In p (params Param g_decay) /\ ~ In p (params Param g_no_decay)).
Proof.
  intros Hnd. unfold configure_optimizers. simpl.
  eexists. eexists. split; [reflexivity|]. simpl.
  split; [reflexivity|]. split; [reflexivity|]. split.
  - rewrite <- map_app. apply Permutation_map.
    apply (filter_split_perm (fun np => any_no_decay (fst np))).
  - intros n p Hin.
    assert (Hother : forall n', In (n', p) named_parameters -> n' = n)
      by (intros n' Hin'; apply (NoDup_snd_functional _ _ _ _ Hnd Hin' Hin)).
    pose proof (any_no_decay_spec n) as Hspec.
    destruct (any_no_decay n) eqn:E.
    + split; [intros _ | intros Hno; exfalso; apply Hno, Hspec; reflexivity].
      split.
      * apply in_map_iff. exists (n, p). split; [reflexivity|].
        apply filter_In. split; [assumption | exact E].
      * intros Hp. apply in_map_iff in Hp as [[n' p'] [Hp' Hf]].
        simpl in Hp'. subst p'. apply filter_In in Hf as [Hin' Hf].
        simpl in Hf. rewrite (Hother n' Hin'), E in Hf. discriminate.
    + split; [intros Hyes; apply Hspec in Hyes; discriminate | intros _].
      split.
      * apply in_map_iff. exists (n, p). split; [reflexivity|].
        apply filter_In. split; [assumption | simpl; rewrite E; reflexivity].
      * intros Hp. apply in_map_iff in Hp as [[n' p'] [Hp' Hf]].
        simpl in Hp'. subst p'. apply filter_In in Hf as [Hin' Hf].
        simpl in Hf. rewrite (Hother n' Hin'), E in Hf. discriminate.
Qed.

Lemma parameter_groups_partition_witness :
  exists g_decay g_no_decay,
    param_groups nat
      (configure_optimizers nat Sample.named_parameters (1 # 100) (3 # 100000))
    = [g_decay; g_no_decay] /\
    group_weight_decay nat g_decay = (1 # 100)%Q /\
    group_weight_decay nat g_no_decay = 0%Q /\
    Permutation (params nat g_decay ++ params nat g_no_decay)
                (map snd Sample.named_parameters) /\
    forall n p, In (n, p) Sample.named_parameters ->
      (occurs_in "bias" n \/ occurs_in "LayerNorm.weight" n ->
       In p (params nat g_no_decay) /\ ~ In p (params nat g_decay)) /\
      (~ (occurs_in "bias" n \/ occurs_in "LayerNorm.weight" n) ->
       In p (params nat g_decay) /\ ~ In p (params nat g_no_decay)).
Proof.
  apply (parameter_groups_partition nat Sample.named_parameters).
  simpl. repeat (apply List.NoDup_cons; [simpl; lia|]). apply List.NoDup_nil.
Defined.

End OptimizerFacts.

(** ** Contrastive loss *)

Module LossFacts.
Import Loss.

Lemma mapi_from_id {A} (f : nat -> A -> A) (k : nat) (xs : list A) :
  (forall i x, f i x = x) -> mapi_from f k xs = xs.
Proof.
  intros Hf. revert k. induction xs as [|x xs IH]; intros k; simpl.
  - reflexivity.
  - rewrite Hf, IH. reflexivity.
Qed.

Lemma hard_negative_bias_zero (i j : nat) : hard_negative_bias 0 i j = 0%R.
Proof. unfold hard_negative_bias. destruct (i =? j)%nat; reflexivity. Qed.

(** C9: with hard-negative weight 0 the contrastive loss of any triple of
    embedding matrices is the unweighted in-batch-negative loss, the mean
    row-wise cross-entropy over the concatenated similarity logits with no
    bias on any negative column. *)
Theorem zero_weight_is_in_batch_negative_loss (D : nat) (temp : R)
    (z_a z_t z_n : Matrix) :
  ContrastiveLoss D temp 0 z_a z_t z_n = in_batch_negative_loss D temp z_a z_t z_n.
Proof.
  unfold ContrastiveLoss, in_batch_negative_loss. cbv zeta.
  do 3 f_equal. unfold mapi. apply mapi_from_id. intros i row.
  apply mapi_from_id. intros j x. rewrite hard_negative_bias_zero.
  apply Rplus_0_r.
Qed.

End LossFacts.

(** ** Evaluation metrics *)

Module EvaluateFacts.
Import Evaluate.

(** Whenever the step returns, its [diff/pos] is the norm of the whole
    difference matrix of the positive rows: the square root of the sum of
    all squared entries. *)
Lemma diff_pos_is_matrix_norm (D : nat) (encode : Ids -> Ids -> Matrix)
    (sim_mean : Matrix -> Matrix -> R) (batch : Batch) (m : Metrics) :
  _evaluate D encode sim_mean batch = Ok m ->
  exists pos_anchor_emb pos_target_emb,
    masked_select
      (encode (anchor_input_ids batch) (anchor_attention_mask batch))
      (map (fun l => (l =? 1)%Z) (labels batch)) = Ok pos_anchor_emb /\
    masked_select
      (encode (target_input_ids batch) (target_attention_mask batch))
      (map (fun l => (l =? 1)%Z) (labels batch)) = Ok pos_target_emb /\
    diff_pos m
    = sqrt (Rlist_sum (map (sum_squares D) (msub pos_anchor_emb pos_target_emb))).
Proof.
  unfold _evaluate. intros H.
  destruct (masked_select (encode (anchor_input_ids batch) _) _) as [pa|];
    [|discriminate].
  destruct (masked_select (encode (target_input_ids batch) _) _) as [pt|];
    [|discriminate].
  repeat (match type of H with
          | match ?x with _ => _ end = _ => destruct x; [|discriminate]
          end).
  injection H as <-. exists pa, pt. repeat split.
Qed.

(** C2: on a batch of two positive examples whose anchor and target
    embeddings are 3 and 4 apart, the step logs [diff/pos] = 5, the norm of
    the whole difference matrix, whereas the mean of the two per-example
    Euclidean distances is 7/2. *)
Theorem diff_pos_is_not_mean_distance :
  let anchors :=
    Sample.encode (anchor_input_ids Sample.eval_batch)
                  (anchor_attention_mask Sample.eval_batch) in
  let targets :=
    Sample.encode (target_input_ids Sample.eval_batch)
                  (target_attention_mask Sample.eval_batch) in
  exists m,
    _evaluate 2 Sample.encode Sample.sim_mean Sample.eval_batch = Ok m /\
    diff_pos m = 5%R /\
    mean_distance 2 anchors targets (labels Sample.eval_batch) 1 = (7 / 2)%R /\
    diff_pos m <> mean_distance 2 anchors targets (labels Sample.eval_batch) 1.
Proof.
  intros anchors targets.
  assert (H3 : sqrt (3 * 3) = 3%R) by (apply sqrt_square; lra).
  assert (H4 : sqrt (4 * 4) = 4%R) by (apply sqrt_square; lra).
  assert (H5 : sqrt (5 * 5) = 5%R) by (apply sqrt_square; lra).
  assert (Hmean :
    mean_distance 2 anchors targets (labels Sample.eval_batch) 1 = (7 / 2)%R).
  { unfold mean_distance, distance, anchors, targets. cbn.
    replace ((0 + (3 - 0) * (3 - 0) + (0 - 0) * (0 - 0)))%R with (3 * 3)%R by ring.
    replace ((0 + (4 - 0) * (4 - 0) + (0 - 0) * (0 - 0)))%R with (4 * 4)%R by ring.
    rewrite H3, H4. lra. }
  eexists. split; [reflexivity|]. cbn [diff_pos].
  assert (Hdiff : scalar_mean
            (norm 2 (msub [fun d : nat => if (d =? 0)%nat then IZR 3 else 0%R;
                            fun d : nat => if (d =? 0)%nat then IZR 4 else 0%R]
                           [fun d : nat => if (d =? 0)%nat then IZR 0 else 0%R;
                            fun d : nat => if (d =? 0)%nat then IZR 0 else 0%R]))
          = 5%R).
  { unfold scalar_mean, norm, msub, sum_squares. cbn.
    match goal with |- sqrt ?x = _ => replace x with (5 * 5)%R by ring end.
    exact H5. }
  split; [exact Hdiff|]. split; [exact Hmean|].
  rewrite Hmean. change (scalar_mean _) with (scalar_mean
            (norm 2 (msub [fun d : nat => if (d =? 0)%nat then IZR 3 else 0%R;
                            fun d : nat => if (d =? 0)%nat then IZR 4 else 0%R]
                           [fun d : nat => if (d =? 0)%nat then IZR 0 else 0%R;
                            fun d : nat => if (d =? 0)%nat then IZR 0 else 0%R]))).
  rewrite Hdiff. lra.
Qed.

End EvaluateFacts.

(** * Further properties of the code *)

(** ** More on the pooler *)

Module PoolerMore.
Import Pooler.

Lemma py_index_error {A} (xs : list A) (i : Z) (e : exn) :
  py_index xs i = Err e -> e = IndexError.
Proof. unfold py_index. repeat case_match; congruence. Qed.

Lemma py_index_in_range {A} (xs : list A) (i : Z) :
  (- Z.of_nat (length xs) <= i < Z.of_nat (length xs))%Z ->
  exists x, py_index xs i = Ok x.
Proof.
  intros Hi. unfold py_index.
  set (k := (if (i <? 0)%Z then Z.of_nat (length xs) + i else i)%Z).
  assert (Hk : (0 <= k < Z.of_nat (length xs))%Z).
  { subst k. destruct (Z.ltb_spec i 0); lia. }
  replace ((0 <=? k)%Z && (k <? Z.of_nat (length xs))%Z) with true
    by (symmetry; apply andb_true_iff; split;
        [apply Z.leb_le | apply Z.ltb_lt]; lia).
  destruct (nth_error xs (Z.to_nat k)) as [x|] eqn:E; [eauto|].
  apply nth_error_None in E. lia.
Qed.

Lemma py_index_out_of_range {A} (xs : list A) (i : Z) :
  ~ (- Z.of_nat (length xs) <= i < Z.of_nat (length xs))%Z ->
  py_index xs i = Err IndexError.
Proof.
  intros Hi. unfold py_index.
  set (k := (if (i <? 0)%Z then Z.of_nat (length xs) + i else i)%Z).
  assert (Hk : ~ (0 <= k < Z.of_nat (length xs))%Z).
  { subst k. destruct (Z.ltb_spec i 0); lia. }
  destruct ((0 <=? k)%Z && (k <? Z.of_nat (length xs))%Z) eqn:E; [|reflexivity].
  apply andb_true_iff in E as [E1 E2].
  apply Z.leb_le in E1. apply Z.ltb_lt in E2. lia.
Qed.

(** Layers that agree wherever the mask is not zero have the same masked
    mean. *)
Lemma masked_mean_agree (N L D : nat) (a b : Hidden) (mask : Ids) :
  (forall i l d, (i < N)%nat -> (l < L)%nat -> (d < D)%nat ->
     mask i l <> 0%Z -> (a i l d == b i l d)%Q) ->
  emb_eq N D (masked_mean L a mask) (masked_mean L b mask).
Proof.
  intros Hab i d Hi Hd. unfold masked_mean. apply fdiv_proper; [|reflexivity].
  apply Qsum_ext. intros l Hl.
  destruct (Z.eq_dec (mask i l) 0%Z) as [E | Hne].
  - rewrite E. simpl. ring.
  - rewrite (Hab i l d Hi Hl Hd Hne). reflexivity.
Qed.

(** X1: the two [cls] variants return the first token of the final layer
    for every example, whatever the attention mask, the other layers and
    the backbone's own pooled output; they raise [IndexError] exactly when
    the sequence length is 0. *)
Theorem cls_variants_first_token (L : nat) (ty ty' : string)
    (mask mask' : Ids) (outputs outputs' : BertOutputs) :
  py_in ty ["cls"; "cls_before_pooler"]%string = true ->
  py_in ty' ["cls"; "cls_before_pooler"]%string = true ->
  last_hidden_state outputs = last_hidden_state outputs' ->
  forward L {| pooler_type := ty |} mask outputs
  = forward L {| pooler_type := ty' |} mask' outputs'
  /\ (forward L {| pooler_type := ty |} mask outputs = Err IndexError <-> L = 0%nat)
  /\ (L <> 0%nat ->
      forward L {| pooler_type := ty |} mask outputs
      = Ok (fun i d => Some (last_hidden_state outputs i 0%nat d))).
Proof.
  intros Hty Hty' Hlh.
  assert (Hcase : forall t, py_in t ["cls"; "cls_before_pooler"]%string = true ->
            forall m o, forward L {| pooler_type := t |} m o
            = if (L =? 0)%nat then Err IndexError
              else Ok (fun i d => Some (last_hidden_state o i 0%nat d))).
  { intros t Ht m o. unfold py_in in Ht. simpl in Ht.
    rewrite !orb_true_iff, !String.eqb_eq in Ht.
    destruct Ht as [-> | [-> | Hf]]; [reflexivity | reflexivity | discriminate]. }
  rewrite (Hcase ty Hty), (Hcase ty' Hty'), Hlh.
  split; [reflexivity|]. destruct (Nat.eqb_spec L 0) as [-> | Hne].
  - split; [tauto | congruence].
  - split; [split; [discriminate | contradiction] | reflexivity].
Qed.

Lemma cls_variants_first_token_witness :
  let h := hidden_of_rows [[[1#2; 3]; [5#2; -1]]]%Q in
  let outputs := {| last_hidden_state := h; pooler_output := fun _ _ => 0%Q;
                    hidden_states := [h] |} in
  let outputs' := {| last_hidden_state := h; pooler_output := fun _ _ => 1%Q;
                     hidden_states := [] |} in
  forward 2 {| pooler_type := "cls" |} (ids_of_rows [[1; 1]%Z]) outputs
  = forward 2 {| pooler_type := "cls_before_pooler" |} (ids_of_rows [[0; 0]%Z]) outputs'
  /\ (forward 2 {| pooler_type := "cls" |} (ids_of_rows [[1; 1]%Z]) outputs
      = Err IndexError <-> 2%nat = 0%nat)
  /\ (2%nat <> 0%nat ->
      forward 2 {| pooler_type := "cls" |} (ids_of_rows [[1; 1]%Z]) outputs
      = Ok (fun i d => Some (last_hidden_state outputs i 0%nat d))).
Proof.
  intros h outputs outputs'.
  apply (cls_variants_first_token 2 "cls" "cls_before_pooler"); reflexivity.
Defined.

(** X2: padding never contributes to [avg] pooling: two final layers that
    agree at every position whose mask entry is not 0 give the same pooled
    output, whatever they hold at the masked positions. *)
Theorem avg_ignores_masked_positions (N L D : nat) (self : t) (mask : Ids)
    (outputs outputs' : BertOutputs) :
  pooler_type self = "avg"%string ->
  (forall i l d, (i < N)%nat -> (l < L)%nat -> (d < D)%nat ->
     mask i l <> 0%Z ->
     (last_hidden_state outputs i l d == last_hidden_state outputs' i l d)%Q) ->
  res_emb_eq N D (forward L self mask outputs) (forward L self mask outputs').
Proof.
  intros Havg Hagree.
  rewrite !(PoolerFacts.forward_avg L self mask _ Havg). simpl.
  apply (masked_mean_agree N L D). exact Hagree.
Qed.

Lemma avg_ignores_masked_positions_witness :
  let mk h := {| last_hidden_state := h; pooler_output := fun _ _ => 0%Q;
                 hidden_states := [h] |} in
  res_emb_eq 1 2
    (forward 3 {| pooler_type := "avg" |} (ids_of_rows [[1; 1; 0]%Z])
       (mk (hidden_of_rows [[[1#2; 3]; [5#2; -1]; [3; 4]]]%Q)))
    (forward 3 {| pooler_type := "avg" |} (ids_of_rows [[1; 1; 0]%Z])
       (mk (hidden_of_rows [[[1#2; 3]; [5#2; -1]; [77; -9]]]%Q))).
Proof.
  intros mk.
  apply (avg_ignores_masked_positions 1 3 2 {| pooler_type := "avg" |});
    [reflexivity|].
  intros i l d Hi Hl Hd Hm.
  destruct i as [|i]; [|lia].
  destruct l as [|[|[|l]]]; [| | exfalso; apply Hm; reflexivity | lia];
    (destruct d as [|[|d]]; [reflexivity | reflexivity | lia]).
Defined.

(** X6: [avg_top2] raises [IndexError] exactly when the backbone returned
    fewer than two layers and [avg_first_last] exactly when it returned
    none; in every other case they return an embedding. *)
Theorem two_layer_pooling_index_errors (L : nat) (mask : Ids)
    (outputs : BertOutputs) :
  let n := length (hidden_states outputs) in
  ((n < 2)%nat ->
   forward L {| pooler_type := "avg_top2" |} mask outputs = Err IndexError) /\
  ((2 <= n)%nat ->
   is_ok (forward L {| pooler_type := "avg_top2" |} mask outputs) = true) /\
  (n = 0%nat ->
   forward L {| pooler_type := "avg_first_last" |} mask outputs = Err IndexError) /\
  ((1 <= n)%nat ->
   is_ok (forward L {| pooler_type := "avg_first_last" |} mask outputs) = true).
Proof.
  intros n. subst n. unfold forward. simpl.
  repeat split; intros Hn.
  - rewrite (py_index_out_of_range (hidden_states outputs) (-2)) by lia.
    reflexivity.
  - destruct (py_index_in_range (hidden_states outputs) (-2)) as [y ->]; [lia|].
    destruct (py_index_in_range (hidden_states outputs) (-1)) as [x ->]; [lia|].
    reflexivity.
  - rewrite (py_index_out_of_range (hidden_states outputs) 0) by lia.
    reflexivity.
  - destruct (py_index_in_range (hidden_states outputs) 0) as [y ->]; [lia|].
    destruct (py_index_in_range (hidden_states outputs) (-1)) as [x ->]; [lia|].
    reflexivity.
Qed.

Lemma two_layer_pooling_index_errors_witness :
  let h := hidden_of_rows [[[1#2; 3]; [5#2; -1]]]%Q in
  let mk hs := {| last_hidden_state := h; pooler_output := fun _ _ => 0%Q;
                  hidden_states := hs |} in
  let mask := ids_of_rows [[1; 1]%Z] in
  forward 2 {| pooler_type := "avg_top2" |} mask (mk [h]) = Err IndexError /\
  is_ok (forward 2 {| pooler_type := "avg_top2" |} mask (mk [h; h])) = true /\
  forward 2 {| pooler_type := "avg_first_last" |} mask (mk []) = Err IndexError /\
  is_ok (forward 2 {| pooler_type := "avg_first_last" |} mask (mk [h])) = true.
Proof.
  intros h mk mask. split; [|split; [|split]].
  - apply (two_layer_pooling_index_errors 2 mask (mk [h])). simpl. lia.
  - apply (two_layer_pooling_index_errors 2 mask (mk [h; h])). simpl. lia.
  - apply (two_layer_pooling_index_errors 2 mask (mk [])). reflexivity.
  - apply (two_layer_pooling_index_errors 2 mask (mk [h])). simpl. lia.
Defined.

(** Constructing a pooler succeeds exactly for the five recognized
    strategy names, and then stores the name; any other name raises an
    [AssertionError] whose message ends with the rejected name. *)
Lemma init_recognized_or_assertion (ty : string) :
  (py_in ty recognized = true /\ init ty = Ok {| pooler_type := ty |}) \/
  (py_in ty recognized = false /\
   init ty = Err (AssertionError ("unrecognized_pooling_type: " ++ ty))).
Proof.
  unfold init. destruct (py_in ty recognized); [left | right]; split; reflexivity.
Qed.

End PoolerMore.

(** ** More on the projection head *)

Module MLPLayerMore.
Import MLPLayer.

Lemma select_activation_recognized (activation : string) :
  py_in activation recognized = true ->
  exists fn, select_activation activation = Some fn.
Proof.
  unfold py_in, recognized, select_activation. simpl.
  rewrite !orb_true_iff.
  intros [-> | [-> | [-> | [-> | Hf]]]]; eauto.
  - destruct (activation =? "GELU")%string; eauto.
  - destruct (activation =? "GELU")%string; eauto.
    destruct (activation =? "ReLU")%string; eauto.
  - destruct (activation =? "GELU")%string; eauto.
    destruct (activation =? "ReLU")%string; eauto.
    destruct (activation =? "mish")%string; eauto.
  - discriminate.
Qed.

Lemma more_blocks_length (prev : nat) (rest : list nat) (fn : activation_fn) :
  length (more_blocks prev rest fn) = (3 * length rest)%nat.
Proof.
  revert prev. induction rest as [|h rest IH]; intros prev; simpl.
  - reflexivity.
  - rewrite IH. lia.
Qed.

Lemma last_cons_default {A} (h d : A) (rest : list A) :
  List.last (h :: rest) d = List.last rest h.
Proof.
  revert h d. induction rest as [|r rest IH]; intros h d.
  - reflexivity.
  - change (List.last (r :: rest) d = List.last (r :: rest) h).
    rewrite (IH r d), (IH r h). reflexivity.
Qed.

Lemma more_blocks_width (prev : nat) (rest : list nat) (fn : activation_fn) :
  out_width prev (more_blocks prev rest fn) = Some (List.last rest prev).
Proof.
  revert prev. induction rest as [|h rest IH]; intros prev.
  - reflexivity.
  - rewrite last_cons_default. simpl. rewrite !Nat.eqb_refl. apply IH.
Qed.

Lemma more_blocks_activations (prev : nat) (rest : list nat) (fn fn' : activation_fn) :
  In (Activation fn') (more_blocks prev rest fn) -> fn' = fn.
Proof.
  revert prev. induction rest as [|h rest IH]; intros prev; simpl.
  - contradiction.
  - intros [H | [H | [H | H]]]; try discriminate.
    + congruence.
    + apply (IH h H).
Qed.

(** X7: the constructor of the projection head returns exactly when the
    width list is not empty and the activation name is one of [GELU],
    [ReLU], [mish], [leaky_relu]; with an empty width list it raises
    [IndexError] whatever the activation name, and otherwise, with another
    name, the error of the unbound local variable [activation_fn]. *)
Theorem mlp_init_outcomes (in_dims : nat) (hidden_dims : list nat)
    (activation : string) :
  (is_ok (init in_dims hidden_dims activation) = true <->
   hidden_dims <> [] /\ py_in activation recognized = true) /\
  (hidden_dims = [] -> init in_dims hidden_dims activation = Err IndexError) /\
  (hidden_dims <> [] -> py_in activation recognized = false ->
   init in_dims hidden_dims activation = Err (UnboundLocalError "activation_fn")).
Proof.
  unfold init. destruct hidden_dims as [|h0 rest].
  - split; [|split]; [|reflexivity|congruence].
    simpl. split; [discriminate | intros [H _]; congruence].
  - destruct (py_in activation recognized) eqn:E.
    + destruct (select_activation_recognized activation E) as [fn ->].
      split; [|split]; [|discriminate|discriminate].
      simpl. split; [intros _; split; [discriminate | reflexivity] | reflexivity].
    + rewrite (MLPLayerFacts.select_activation_unrecognized activation E).
      split; [|split]; [|discriminate|reflexivity].
      simpl. split; [discriminate | intros [_ H]; discriminate].
Qed.

Lemma mlp_init_outcomes_witness :
  (is_ok (init 768 [768; 256]%nat "mish") = true <->
   [768; 256]%nat <> [] /\ py_in "mish" recognized = true) /\
  init 768 [] "mish" = Err IndexError /\
  init 768 [768; 256]%nat "gelu" = Err (UnboundLocalError "activation_fn").
Proof.
  split; [|split].
  - apply (mlp_init_outcomes 768 [768; 256]%nat "mish").
  - apply (mlp_init_outcomes 768 [] "mish"). reflexivity.
  - apply (mlp_init_outcomes 768 [768; 256]%nat "gelu"); [discriminate | reflexivity].
Defined.

Lemma more_blocks_nth (prev : nat) (rest : list nat) (fn : activation_fn) (i : nat) :
  (i < length rest)%nat ->
  nth_error (more_blocks prev rest fn) (3 * i)
  = Some (Linear (nth i (prev :: rest) 0%nat) (nth i rest 0%nat)) /\
  nth_error (more_blocks prev rest fn) (3 * i + 1)
  = Some (LayerNorm (nth i rest 0%nat)) /\
  nth_error (more_blocks prev rest fn) (3 * i + 2) = Some (Activation fn).
Proof.
  revert prev i. induction rest as [|h rest IH]; intros prev i Hi;
    [simpl in Hi; lia|].
  destruct i as [|i].
  - repeat split.
  - simpl in Hi.
    replace (3 * S i)%nat with (S (S (S (3 * i)))) by lia.
    replace (S (S (S (3 * i))) + 1)%nat with (S (S (S (3 * i + 1)))) by lia.
    replace (S (S (S (3 * i))) + 2)%nat with (S (S (S (3 * i + 2)))) by lia.
    simpl. apply (IH h i). lia.
Qed.

Lemma select_activation_names (activation : string) (fn : activation_fn) :
  select_activation activation = Some fn ->
  (activation = "GELU"%string /\ fn = GELU) \/
  (activation = "ReLU"%string /\ fn = ReLU) \/
  (activation = "mish"%string /\ fn = Mish) \/
  (activation = "leaky_relu"%string /\ fn = LeakyReLU).
Proof.
  unfold select_activation.
  destruct (String.eqb_spec activation "GELU");
    [intros [= <-]; tauto|].
  destruct (String.eqb_spec activation "ReLU");
    [intros [= <-]; tauto|].
  destruct (String.eqb_spec activation "mish");
    [intros [= <-]; tauto|].
  destruct (String.eqb_spec activation "leaky_relu");
    [intros [= <-]; tauto | discriminate].
Qed.

(** X8: a projection head that was constructed consists of one block per
    configured width and of nothing else: block [i] is a linear layer from
    the previous width ([in_dims] for the first block) to width [i], then
    a normalization of width [i], then the activation that goes with the
    activation name; so every layer fits the width it receives and the
    head delivers the last configured width. *)
Theorem init_builds_fitting_stack (in_dims : nat) (hidden_dims : list nat)
    (activation : string) (self : t) :
  init in_dims hidden_dims activation = Ok self ->
  exists fn,
    ((activation = "GELU"%string /\ fn = GELU) \/
     (activation = "ReLU"%string /\ fn = ReLU) \/
     (activation = "mish"%string /\ fn = Mish) \/
     (activation = "leaky_relu"%string /\ fn = LeakyReLU)) /\
    length (net self) = (3 * length hidden_dims)%nat /\
    (forall i, (i < length hidden_dims)%nat ->
       nth_error (net self) (3 * i)
       = Some (Linear (nth i (in_dims :: hidden_dims) 0%nat)
                      (nth i hidden_dims 0%nat)) /\
       nth_error (net self) (3 * i + 1)
       = Some (LayerNorm (nth i hidden_dims 0%nat)) /\
       nth_error (net self) (3 * i + 2) = Some (Activation fn)) /\
    out_width in_dims (net self) = Some (List.last hidden_dims in_dims).
Proof.
  unfold init. destruct hidden_dims as [|h0 rest]; [discriminate|].
  destruct (select_activation activation) as [fn|] eqn:Hsel; [|discriminate].
  intros [= <-]. exists fn.
  split; [apply select_activation_names; exact Hsel|].
  change (net {| net := Linear in_dims h0 :: LayerNorm h0 :: Activation fn
                          :: more_blocks h0 rest fn |})
    with (more_blocks in_dims (h0 :: rest) fn).
  split; [apply more_blocks_length|].
  split; [intros i Hi; apply more_blocks_nth; exact Hi|].
  apply more_blocks_width.
Qed.

Lemma init_builds_fitting_stack_witness :
  let self := {| net := [Linear 768 512; LayerNorm 512; Activation LeakyReLU;
                         Linear 512 128; LayerNorm 128; Activation LeakyReLU] |} in
  exists fn,
    (("leaky_relu" = "GELU" /\ fn = GELU) \/
     ("leaky_relu" = "ReLU" /\ fn = ReLU) \/
     ("leaky_relu" = "mish" /\ fn = Mish) \/
     ("leaky_relu" = "leaky_relu" /\ fn = LeakyReLU))%string /\
    length (net self) = (3 * length [512; 128]%nat)%nat /\
    (forall i, (i < length [512; 128]%nat)%nat ->
       nth_error (net self) (3 * i)
       = Some (Linear (nth i (768 :: [512; 128])%nat 0%nat)
                      (nth i [512; 128]%nat 0%nat)) /\
       nth_error (net self) (3 * i + 1)
       = Some (LayerNorm (nth i [512; 128]%nat 0%nat)) /\
       nth_error (net self) (3 * i + 2) = Some (Activation fn)) /\
    out_width 768 (net self) = Some (List.last [512; 128]%nat 768%nat).
Proof.
  intros self.
  apply (init_builds_fitting_stack 768 [512; 128]%nat "leaky_relu" self).
  reflexivity.
Defined.

End MLPLayerMore.

(** ** More on the encoder *)

Module EncoderMore.
Import Encoder.

(** A pooler with a recognized strategy name handles every call. *)
Lemma pooler_forward_handled (L : nat) (ty : string) (mask : Ids)
    (outputs : Pooler.BertOutputs) :
  py_in ty Pooler.recognized = true ->
  Pooler.forward L {| Pooler.pooler_type := ty |} mask outputs
  <> Err NotImplementedError.
Proof.
  intros Hin. apply PoolerFacts.py_in_recognized in Hin.
  unfold Pooler.forward.
  destruct Hin as [-> | [-> | [-> | [-> | ->]]]]; simpl.
  - destruct (L =? 0)%nat; discriminate.
  - destruct (L =? 0)%nat; discriminate.
  - discriminate.
  - destruct (py_index (Pooler.hidden_states outputs) (-2)) as [?|e] eqn:E2.
    + destruct (py_index (Pooler.hidden_states outputs) (-1)) as [?|e] eqn:E1;
        [discriminate|].
      rewrite (PoolerMore.py_index_error _ _ _ E1). discriminate.
    + rewrite (PoolerMore.py_index_error _ _ _ E2). discriminate.
  - destruct (py_index (Pooler.hidden_states outputs) 0) as [?|e] eqn:E0.
    + destruct (py_index (Pooler.hidden_states outputs) (-1)) as [?|e] eqn:E1;
        [discriminate|].
      rewrite (PoolerMore.py_index_error _ _ _ E1). discriminate.
    + rewrite (PoolerMore.py_index_error _ _ _ E0). discriminate.
Qed.

Lemma py_in_recognized_iff (ty : string) :
  py_in ty Pooler.recognized = true <->
  In ty ["cls"; "cls_before_pooler"; "avg"; "avg_top2"; "avg_first_last"]%string.
Proof.
  split.
  - intros H. apply PoolerFacts.py_in_recognized in H. simpl.
    destruct H as [-> | [-> | [-> | [-> | ->]]]]; tauto.
  - simpl. intros [<- | [<- | [<- | [<- | [<- | []]]]]]; reflexivity.
Qed.

(** X9: once the backbone is loaded, constructing an encoder fails with
    the pooler's assertion when the pooling name is not one of the five
    recognized names, even if the width list is empty too; with a
    recognized name and an empty width list it fails with [IndexError];
    otherwise it returns an encoder whose pooler carries the very name the
    encoder records, which keeps the given hyperparameters, and whose
    projection head is the one [MLPLayer] builds for input width 768, the
    given widths and the activation name [GELU], so that every block of
    the head ends with a [GELU] layer. *)
Theorem encoder_init_outcomes (input_mask_rate : Q) (pooler_type : string)
    (mlp_layers : list nat) (temp hard_negative_weight learning_rate
    weight_decay : Q) :
  let r := init input_mask_rate pooler_type mlp_layers temp
             hard_negative_weight learning_rate weight_decay in
  let recognized :=
    In pooler_type
       ["cls"; "cls_before_pooler"; "avg"; "avg_top2"; "avg_first_last"]%string in
  (~ recognized ->
   r = Err (AssertionError ("unrecognized_pooling_type: " ++ pooler_type))) /\
  (recognized -> mlp_layers = [] -> r = Err IndexError) /\
  (recognized -> mlp_layers <> [] ->
   exists self, r = Ok self /\
     Encoder.pooler_type self = pooler_type /\
     Pooler.pooler_type (pooler self) = pooler_type /\
     Encoder.input_mask_rate self = input_mask_rate /\
     Encoder.temp self = temp /\
     Encoder.hard_negative_weight self = hard_negative_weight /\
     Encoder.weight_decay self = weight_decay /\
     Encoder.learning_rate self = learning_rate /\
     MLPLayer.init 768 mlp_layers "GELU" = Ok (net self) /\
     length (MLPLayer.net (net self)) = (3 * length mlp_layers)%nat /\
     forall i, (i < length mlp_layers)%nat ->
       nth_error (MLPLayer.net (net self)) (3 * i + 2)
       = Some (MLPLayer.Activation MLPLayer.GELU)).
Proof.
  intros r recognized. subst r recognized.
  rewrite <- py_in_recognized_iff. unfold init, Pooler.init.
  destruct (py_in pooler_type Pooler.recognized) eqn:E.
  - split; [intros H; exfalso; apply H; reflexivity|]. split.
    + intros _ ->. reflexivity.
    + intros _ Hne. destruct mlp_layers as [|h0 rest]; [congruence|].
      pose proof (MLPLayerMore.more_blocks_length 768 (h0 :: rest) MLPLayer.GELU)
        as Hlen.
      pose proof (fun i => MLPLayerMore.more_blocks_nth 768 (h0 :: rest)
                             MLPLayer.GELU i) as Hnth.
      eexists. split; [reflexivity|].
      repeat (split; [reflexivity|]).
      split; [exact Hlen|].
      intros i Hi. apply (Hnth i Hi).
  - split; [reflexivity|]. split; intros H; discriminate H.
Qed.

Lemma encoder_init_outcomes_witness :
  init (1 # 10) "max" [] (1 # 20) 0 (3 # 100000) 0
  = Err (AssertionError "unrecognized_pooling_type: max") /\
  init (1 # 10) "avg" [] (1 # 20) 0 (3 # 100000) 0 = Err IndexError /\
  exists self, init (1 # 10) "avg" [768%nat] (1 # 20) 0 (3 # 100000) 0 = Ok self /\
     Encoder.pooler_type self = "avg"%string /\
     Pooler.pooler_type (pooler self) = "avg"%string /\
     Encoder.input_mask_rate self = (1 # 10)%Q /\
     Encoder.temp self = (1 # 20)%Q /\
     Encoder.hard_negative_weight self = 0%Q /\
     Encoder.weight_decay self = 0%Q /\
     Encoder.learning_rate self = (3 # 100000)%Q /\
     MLPLayer.init 768 [768%nat] "GELU" = Ok (net self) /\
     length (MLPLayer.net (net self)) = (3 * length [768%nat])%nat /\
     forall i, (i < length [768%nat])%nat ->
       nth_error (MLPLayer.net (net self)) (3 * i + 2)
       = Some (MLPLayer.Activation MLPLayer.GELU).
Proof.
  split; [|split].
  - apply (encoder_init_outcomes (1 # 10) "max" [] (1 # 20) 0 (3 # 100000) 0).
    simpl. intros [H | [H | [H | [H | [H | []]]]]]; discriminate H.
  - apply (encoder_init_outcomes (1 # 10) "avg" [] (1 # 20) 0 (3 # 100000) 0);
      [simpl; tauto | reflexivity].
  - apply (encoder_init_outcomes (1 # 10) "avg" [768%nat] (1 # 20) 0 (3 # 100000) 0);
      [simpl; tauto | discriminate].
Defined.

Section Forward.
Variable L : nat.
Variable bert_model : Ids -> Ids -> Pooler.BertOutputs.
Variable mlp_forward : MLPLayer.t -> Emb -> Emb.

Local Abbreviation fwd := (forward L bert_model mlp_forward).

(** X10: an encoder that was constructed never raises
    [NotImplementedError] from [forward], whatever the tensors, the flag
    and the draws. *)
Theorem constructed_encoder_never_not_implemented (input_mask_rate : Q)
    (pooler_type : string) (mlp_layers : list nat)
    (temp hard_negative_weight learning_rate weight_decay : Q) (self : t)
    (input_ids attention_mask : loc) (do_mlm : bool) (rand : nat -> nat -> Q)
    (s : Store) :
  init input_mask_rate pooler_type mlp_layers temp hard_negative_weight
       learning_rate weight_decay = Ok self ->
  fst (fwd self input_ids attention_mask do_mlm rand s) <> Err NotImplementedError.
Proof.
  intros Hinit.
  assert (Hp : py_in pooler_type Pooler.recognized = true /\
               pooler self = {| Pooler.pooler_type := pooler_type |}).
  { unfold init, Pooler.init in Hinit.
    destruct (py_in pooler_type Pooler.recognized); [|discriminate].
    destruct (MLPLayer.init 768 mlp_layers "GELU"); [|discriminate].
    injection Hinit as <-. split; reflexivity. }
  destruct Hp as [Hrec Hpool].
  destruct (s !! input_ids) as [ids|] eqn:Hids.
  - destruct (EncoderFacts.forward_run L bert_model mlp_forward self input_ids
                attention_mask do_mlm rand s ids Hids) as [_ ->].
    destruct (store_after self do_mlm rand input_ids ids s !! attention_mask)
      as [mask|]; [|discriminate].
    simpl. rewrite Hpool.
    pose proof (pooler_forward_handled L pooler_type mask
                  (bert_model (corrupted self do_mlm rand ids) mask) Hrec) as Hne.
    destruct (Pooler.forward L _ mask _) as [e|e];
      destruct (Encoder.pooler_type self =? "cls")%string; simpl;
      congruence.
  - unfold forward, bind, load, store, ret. destruct do_mlm; cbv beta;
      rewrite !Hids; discriminate.
Qed.

(** X11: with corruption disabled [forward] leaves every tensor as it was
    and neither its result nor the store depends on the random draws. *)
Theorem forward_without_corruption_is_pure (self : t)
    (input_ids attention_mask : loc) (rand rand' : nat -> nat -> Q) (s : Store) :
  snd (fwd self input_ids attention_mask false rand s) = s /\
  fwd self input_ids attention_mask false rand s
  = fwd self input_ids attention_mask false rand' s.
Proof.
  split; [|reflexivity].
  unfold forward, bind, load, lift, ret. cbv beta.
  destruct (s !! input_ids); [|reflexivity].
  destruct (s !! attention_mask); [|reflexivity].
  destruct (Pooler.forward _ _ _ _); [|reflexivity].
  destruct (pooler_type self =? "cls")%string; reflexivity.
Qed.

(** The corrupted tensor, position by position. *)
Lemma corrupted_spec (self : t) (rand : nat -> nat -> Q) (ids : Ids) (i j : nat) :
  ((input_mask_rate self < rand i j)%Q /\ ids i j <> 101%Z /\ ids i j <> 102%Z ->
   corrupted self true rand ids i j = 0%Z) /\
  (~ ((input_mask_rate self < rand i j)%Q /\ ids i j <> 101%Z /\ ids i j <> 102%Z) ->
   corrupted self true rand ids i j = ids i j).
Proof.
  unfold corrupted, masked_fill_zero.
  pose proof (EncoderFacts.sentence_mask_true self rand ids i j) as Hm.
  destruct (sentence_mask self rand ids i j).
  - split; [reflexivity|]. intros Hn. exfalso. apply Hn. apply Hm. reflexivity.
  - split; [|reflexivity]. intros H. apply Hm in H. discriminate.
Qed.

(** X12: with corruption enabled, and whether or not the call then
    raises, the caller's [input_ids] holds 0 at exactly the positions whose
    draw exceeds [input_mask_rate] and whose id is neither 101 nor 102, and
    its old id everywhere else. *)
Theorem corruption_exactly_when (self : t) (input_ids attention_mask : loc)
    (rand : nat -> nat -> Q) (s : Store) (ids : Ids) :
  s !! input_ids = Some ids ->
  exists ids',
    snd (fwd self input_ids attention_mask true rand s) !! input_ids = Some ids' /\
    forall i j,
      ((input_mask_rate self < rand i j)%Q /\ ids i j <> 101%Z /\ ids i j <> 102%Z ->
       ids' i j = 0%Z) /\
      (~ ((input_mask_rate self < rand i j)%Q /\ ids i j <> 101%Z /\ ids i j <> 102%Z) ->
       ids' i j = ids i j).
Proof.
  intros Hids.
  rewrite (EncoderFacts.forward_final_store L bert_model mlp_forward self
             input_ids attention_mask true rand s ids Hids).
  unfold store_after. exists (corrupted self true rand ids).
  split; [apply lookup_insert_eq|].
  intros i j. apply corrupted_spec.
Qed.

(** X13: for draws in [0, 1), a rate of 1 or more switches the corruption
    off (no id changes), and a rate of 0 or less zeroes every id other than
    101 and 102 whose draw is positive. *)
Theorem corruption_at_extreme_rates (self : t) (input_ids attention_mask : loc)
    (rand : nat -> nat -> Q) (s : Store) (ids : Ids) :
  s !! input_ids = Some ids ->
  (forall i j, (0 <= rand i j)%Q /\ (rand i j < 1)%Q) ->
  exists ids',
    snd (fwd self input_ids attention_mask true rand s) !! input_ids = Some ids' /\
    ((1 <= input_mask_rate self)%Q -> forall i j, ids' i j = ids i j) /\
    ((input_mask_rate self <= 0)%Q ->
     forall i j, (0 < rand i j)%Q -> ids i j <> 101%Z -> ids i j <> 102%Z ->
                 ids' i j = 0%Z).
Proof.
  intros Hids Hrand.
  rewrite (EncoderFacts.forward_final_store L bert_model mlp_forward self
             input_ids attention_mask true rand s ids Hids).
  unfold store_after. exists (corrupted self true rand ids).
  split; [apply lookup_insert_eq|].
  pose proof (corrupted_spec self rand ids) as Hchar. split.
  - intros Hrate i j. apply (Hchar i j). intros [Hlt _].
    destruct (Hrand i j) as [_ H1].
    apply (Qlt_irrefl (rand i j)).
    apply Qlt_le_trans with 1%Q; [exact H1|].
    apply Qle_trans with (input_mask_rate self); [exact Hrate|].
    apply Qlt_le_weak. exact Hlt.
  - intros Hrate i j Hpos H101 H102. apply (Hchar i j).
    repeat split; try assumption.
    apply Qle_lt_trans with 0%Q; assumption.
Qed.

(** X14: corrupting again never restores an id: after a second call on
    the same tensor every position that held 0 still holds 0 and every
    position that held 101 or 102 still holds it; with the same draws the
    second call changes nothing. *)
Theorem corruption_twice (self : t) (input_ids attention_mask : loc)
    (rand rand' : nat -> nat -> Q) (s : Store) (ids : Ids) :
  s !! input_ids = Some ids ->
  let s1 := snd (fwd self input_ids attention_mask true rand s) in
  let s2 := snd (fwd self input_ids attention_mask true rand' s1) in
  exists ids1 ids2,
    s1 !! input_ids = Some ids1 /\ s2 !! input_ids = Some ids2 /\
    (forall i j, ids1 i j = 0%Z -> ids2 i j = 0%Z) /\
    (forall i j, ids i j = 101%Z \/ ids i j = 102%Z -> ids2 i j = ids i j) /\
    ((forall i j, rand' i j = rand i j) -> forall i j, ids2 i j = ids1 i j).
Proof.
  intros Hids s1 s2. subst s1 s2.
  rewrite (EncoderFacts.forward_final_store L bert_model mlp_forward self
             input_ids attention_mask true rand s ids Hids).
  set (ids1 := corrupted self true rand ids).
  assert (H1 : store_after self true rand input_ids ids s !! input_ids = Some ids1)
    by apply lookup_insert_eq.
  rewrite (EncoderFacts.forward_final_store L bert_model mlp_forward self
             input_ids attention_mask true rand' _ ids1 H1).
  exists ids1, (corrupted self true rand' ids1).
  split; [exact H1|]. split; [apply lookup_insert_eq|].
  assert (Hkeep : forall r t i j, t i j = 101%Z \/ t i j = 102%Z ->
                    corrupted self true r t i j = t i j).
  { intros r t i j H. apply EncoderFacts.boundary_ids_kept. exact H. }
  split; [|split].
  - intros i j H0. unfold corrupted, masked_fill_zero.
    destruct (sentence_mask self rand' ids1 i j); [reflexivity | exact H0].
  - intros i j Hb. rewrite (Hkeep rand' ids1 i j).
    + apply Hkeep. exact Hb.
    + unfold ids1. rewrite (Hkeep rand ids i j Hb). exact Hb.
  - intros Hsame i j. unfold corrupted at 1. unfold masked_fill_zero.
    destruct (sentence_mask self rand' ids1 i j) eqn:E; [|reflexivity].
    apply EncoderFacts.sentence_mask_true in E as (Hlt & H101 & H102).
    rewrite Hsame in Hlt.
    unfold ids1, corrupted, masked_fill_zero in *.
    destruct (sentence_mask self rand ids i j) eqn:E'; [reflexivity|].
    exfalso.
    assert (Ht : sentence_mask self rand ids i j = true)
      by (apply EncoderFacts.sentence_mask_true; tauto).
    congruence.
Qed.
End Forward.

Lemma sample_rand_in_unit_interval (i j : nat) :
  (0 <= Sample.rand i j)%Q /\ (Sample.rand i j < 1)%Q.
Proof.
  unfold Sample.rand.
  destruct j as [|[|[|[|[|j]]]]]; simpl; split;
    try (apply Qle_bool_iff; reflexivity); reflexivity.
Qed.

Lemma constructed_encoder_never_not_implemented_witness :
  fst (forward 4 Sample.bert_model Sample.mlp_forward (Sample.encoder "avg")
         1%positive 2%positive true Sample.rand Sample.caller_store)
  <> Err NotImplementedError.
Proof.
  apply (constructed_encoder_never_not_implemented 4 Sample.bert_model
           Sample.mlp_forward (1 # 10) "avg" [768%nat] (1 # 20) 0 (3 # 100000) 0).
  reflexivity.
Defined.

Lemma corruption_exactly_when_witness :
  let self := Sample.encoder "avg" in
  exists ids',
    snd (forward 4 Sample.bert_model Sample.mlp_forward self 1%positive 2%positive
           true Sample.rand Sample.caller_store) !! 1%positive = Some ids' /\
    forall i j,
      ((input_mask_rate self < Sample.rand i j)%Q /\
       Sample.input_ids i j <> 101%Z /\ Sample.input_ids i j <> 102%Z ->
       ids' i j = 0%Z) /\
      (~ ((input_mask_rate self < Sample.rand i j)%Q /\
          Sample.input_ids i j <> 101%Z /\ Sample.input_ids i j <> 102%Z) ->
       ids' i j = Sample.input_ids i j).
Proof.
  intros self.
  apply (corruption_exactly_when 4 Sample.bert_model Sample.mlp_forward self
           1%positive 2%positive Sample.rand Sample.caller_store Sample.input_ids).
  reflexivity.
Defined.

Lemma corruption_at_extreme_rates_witness :
  (exists ids',
     snd (forward 4 Sample.bert_model Sample.mlp_forward (SampleRates.encoder 1)
            1%positive 2%positive true Sample.rand Sample.caller_store)
     !! 1%positive = Some ids' /\
     forall i j, ids' i j = Sample.input_ids i j) /\
  (exists ids',
     snd (forward 4 Sample.bert_model Sample.mlp_forward (SampleRates.encoder 0)
            1%positive 2%positive true Sample.rand Sample.caller_store)
     !! 1%positive = Some ids' /\
     forall i j, (0 < Sample.rand i j)%Q ->
       Sample.input_ids i j <> 101%Z -> Sample.input_ids i j <> 102%Z ->
       ids' i j = 0%Z).
Proof.
  split.
  - destruct (corruption_at_extreme_rates 4 Sample.bert_model Sample.mlp_forward
                (SampleRates.encoder 1) 1%positive 2%positive Sample.rand
                Sample.caller_store Sample.input_ids eq_refl
                sample_rand_in_unit_interval) as (ids' & Hst & Hoff & _).
    exists ids'. split; [exact Hst|]. apply Hoff. apply Qle_refl.
  - destruct (corruption_at_extreme_rates 4 Sample.bert_model Sample.mlp_forward
                (SampleRates.encoder 0) 1%positive 2%positive Sample.rand
                Sample.caller_store Sample.input_ids eq_refl
                sample_rand_in_unit_interval) as (ids' & Hst & _ & Hall).
    exists ids'. split; [exact Hst|]. apply Hall. apply Qle_refl.
Defined.

Lemma corruption_twice_witness :
  let self := Sample.encoder "avg" in
  let s1 := snd (forward 4 Sample.bert_model Sample.mlp_forward self 1%positive
                   2%positive true Sample.rand Sample.caller_store) in
  let s2 := snd (forward 4 Sample.bert_model Sample.mlp_forward self 1%positive
                   2%positive true Sample.rand s1) in
  exists ids1 ids2,
    s1 !! 1%positive = Some ids1 /\ s2 !! 1%positive = Some ids2 /\
    (forall i j, ids1 i j = 0%Z -> ids2 i j = 0%Z) /\
    (forall i j, Sample.input_ids i j = 101%Z \/ Sample.input_ids i j = 102%Z ->
                 ids2 i j = Sample.input_ids i j) /\
    ((forall i j, Sample.rand i j = Sample.rand i j) ->
     forall i j, ids2 i j = ids1 i j).
Proof.
  intros self.
  apply (corruption_twice 4 Sample.bert_model Sample.mlp_forward self
           1%positive 2%positive Sample.rand Sample.rand Sample.caller_store
           Sample.input_ids).
  reflexivity.
Defined.

End EncoderMore.

(** ** The training step *)

Module TrainingFacts.
Import Training.

Lemma bind_Ok_inv {A B} (m : M A) (k : A -> M B) (s s' : Store) (b : B) :
  bind m k s = (Ok b, s') ->
  exists a s1, m s = (Ok a, s1) /\ k a s1 = (Ok b, s').
Proof.
  unfold bind. destruct (m s) as [[a|e] s1]; intros H; [eauto | discriminate].
Qed.

Lemma fresh_not_live (s : Store) (r : loc) :
  is_Some (s !! r) -> r <> fresh (dom s).
Proof.
  intros Hr ->. apply (is_fresh (dom s)). apply elem_of_dom. exact Hr.
Qed.

Lemma fresh_lookup_None (s : Store) : s !! fresh (dom s) = None.
Proof.
  destruct (s !! fresh (dom s)) eqn:E; [|reflexivity].
  exfalso. apply (fresh_not_live s (fresh (dom s))); eauto.
Qed.

Lemma index_rows_Ok (x : loc) (index : nat -> nat) (s s' : Store) (r : loc)
    (t : Ids) :
  s !! x = Some t ->
  index_rows x index s = (Ok r, s') ->
  r = fresh (dom s) /\ s' = <[r := fun i j => t (index i) j]> s.
Proof.
  intros Hx. unfold index_rows, bind, load, alloc. rewrite Hx.
  intros [= <- <-]. split; reflexivity.
Qed.

Section Step.
Variable L : nat.
Variable bert_model : Ids -> Ids -> Pooler.BertOutputs.
Variable mlp_forward : MLPLayer.t -> Emb -> Emb.
Variable Loss : Type.
Variable loss_fn : Emb -> Emb -> Emb -> Loss.

Local Abbreviation step := (training_step L bert_model mlp_forward Loss loss_fn).

Lemma forward_Ok_store (self : Encoder.t) (input_ids attention_mask : loc)
    (rand : nat -> nat -> Q) (s s' : Store) (ids : Ids) (e : Emb) :
  s !! input_ids = Some ids ->
  Encoder.forward L bert_model mlp_forward self input_ids attention_mask true rand s
  = (Ok e, s') ->
  s' = <[input_ids := corrupted self true rand ids]> s.
Proof.
  intros Hids Hrun.
  pose proof (EncoderFacts.forward_final_store L bert_model mlp_forward self
                input_ids attention_mask true rand s ids Hids) as Hst.
  rewrite Hrun in Hst. simpl in Hst. exact Hst.
Qed.

(** The store a training step that returns leaves behind. *)
Lemma training_step_final_store (self : Encoder.t) (batch : Batch)
    (rand_a rand_t rand_n : nat -> nat -> Q) (negative_index : nat -> nat)
    (s s' : Store) (loss : Loss) (ids_a mask_a ids_t mask_t : Ids) :
  s !! anchor_input_ids batch = Some ids_a ->
  s !! anchor_attention_mask batch = Some mask_a ->
  s !! target_input_ids batch = Some ids_t ->
  s !! target_attention_mask batch = Some mask_t ->
  anchor_input_ids batch <> target_input_ids batch ->
  anchor_attention_mask batch <> anchor_input_ids batch ->
  anchor_attention_mask batch <> target_input_ids batch ->
  step self batch rand_a rand_t rand_n negative_index s = (Ok loss, s') ->
  let ca := corrupted self true rand_a ids_a in
  let ct := corrupted self true rand_t ids_t in
  exists r_ids r_mask,
    s !! r_ids = None /\ s !! r_mask = None /\ r_ids <> r_mask /\
    s' = <[r_ids := corrupted self true rand_n (fun i j => ca (negative_index i) j)]>
           (<[r_mask := fun i j => mask_a (negative_index i) j]>
              (<[r_ids := fun i j => ca (negative_index i) j]>
                 (<[target_input_ids batch := ct]>
                    (<[anchor_input_ids batch := ca]> s)))).
Proof.
  intros Ha Hma Ht Hmt Hat Hmaa Hmat Hrun ca ct.
  unfold training_step in Hrun.
  apply bind_Ok_inv in Hrun as (ao & s1 & H1 & Hrun).
  apply (forward_Ok_store _ _ _ _ _ _ ids_a _ Ha) in H1. fold ca in H1.
  apply bind_Ok_inv in Hrun as (to & s2 & H2 & Hrun).
  assert (Ht1 : s1 !! target_input_ids batch = Some ids_t).
  { subst s1. rewrite lookup_insert_ne by assumption. exact Ht. }
  apply (forward_Ok_store _ _ _ _ _ _ ids_t _ Ht1) in H2. fold ct in H2.
  apply bind_Ok_inv in Hrun as (r3 & s3 & H3 & Hrun).
  assert (Ha2 : s2 !! anchor_input_ids batch = Some ca).
  { subst s2 s1. rewrite lookup_insert_ne by congruence.
    apply lookup_insert_eq. }
  apply (index_rows_Ok _ _ _ _ _ ca Ha2) in H3 as [Hr3 H3].
  apply bind_Ok_inv in Hrun as (r4 & s4 & H4 & Hrun).
  assert (Hma2 : s2 !! anchor_attention_mask batch = Some mask_a).
  { subst s2 s1. rewrite !lookup_insert_ne by congruence. exact Hma. }
  assert (Hr3m : anchor_attention_mask batch <> r3).
  { rewrite Hr3. apply fresh_not_live. eauto. }
  assert (Hma3 : s3 !! anchor_attention_mask batch = Some mask_a).
  { rewrite H3. rewrite lookup_insert_ne by congruence. exact Hma2. }
  apply (index_rows_Ok _ _ _ _ _ mask_a Hma3) in H4 as [Hr4 H4].
  assert (Hr34 : r3 <> r4).
  { rewrite Hr4. apply fresh_not_live. rewrite H3, lookup_insert_eq. eauto. }
  apply bind_Ok_inv in Hrun as (no & s5 & H5 & Hrun).
  assert (H34 : s4 !! r3 = Some (fun i j => ca (negative_index i) j)).
  { rewrite H4. rewrite lookup_insert_ne by congruence.
    rewrite H3. apply lookup_insert_eq. }
  apply (forward_Ok_store _ _ _ _ _ _ _ _ H34) in H5.
  injection Hrun as _ <-.
  assert (Hs2r3 : s2 !! r3 = None) by (rewrite Hr3; apply fresh_lookup_None).
  assert (Hs3r4 : s3 !! r4 = None) by (rewrite Hr4; apply fresh_lookup_None).
  assert (Hsr3 : s !! r3 = None).
  { destruct (s !! r3) as [x|] eqn:E; [|reflexivity]. exfalso.
    subst s2 s1. 
    destruct (decide (target_input_ids batch = r3)) as [<- | Hn1];
      [rewrite lookup_insert_eq in Hs2r3; discriminate|].
    rewrite lookup_insert_ne in Hs2r3 by assumption.
    destruct (decide (anchor_input_ids batch = r3)) as [<- | Hn2];
      [rewrite lookup_insert_eq in Hs2r3; discriminate|].
    rewrite lookup_insert_ne in Hs2r3 by assumption. congruence. }
  assert (Hsr4 : s !! r4 = None).
  { destruct (s !! r4) as [x|] eqn:E; [|reflexivity]. exfalso.
    rewrite H3 in Hs3r4. rewrite lookup_insert_ne in Hs3r4 by assumption.
    subst s2 s1.
    destruct (decide (target_input_ids batch = r4)) as [<- | Hn1];
      [rewrite lookup_insert_eq in Hs3r4; discriminate|].
    rewrite lookup_insert_ne in Hs3r4 by assumption.
    destruct (decide (anchor_input_ids batch = r4)) as [<- | Hn2];
      [rewrite lookup_insert_eq in Hs3r4; discriminate|].
    rewrite lookup_insert_ne in Hs3r4 by assumption. congruence. }
  exists r3, r4. split; [exact Hsr3|]. split; [exact Hsr4|].
  split; [exact Hr34|].
  rewrite H5, H4, H3, H2, H1. reflexivity.
Qed.

(** X15: a training step that returns has overwritten the batch's own
    anchor and target token ids with their corrupted versions, and has
    left both attention masks of the batch as they were. *)
Theorem training_step_overwrites_batch (self : Encoder.t) (batch : Batch)
    (rand_a rand_t rand_n : nat -> nat -> Q) (negative_index : nat -> nat)
    (s s' : Store) (loss : Loss) (ids_a mask_a ids_t mask_t : Ids) :
  s !! anchor_input_ids batch = Some ids_a ->
  s !! anchor_attention_mask batch = Some mask_a ->
  s !! target_input_ids batch = Some ids_t ->
  s !! target_attention_mask batch = Some mask_t ->
  anchor_input_ids batch <> target_input_ids batch ->
  anchor_attention_mask batch <> anchor_input_ids batch ->
  anchor_attention_mask batch <> target_input_ids batch ->
  target_attention_mask batch <> anchor_input_ids batch ->
  target_attention_mask batch <> target_input_ids batch ->
  step self batch rand_a rand_t rand_n negative_index s = (Ok loss, s') ->
  s' !! anchor_input_ids batch = Some (corrupted self true rand_a ids_a) /\
  s' !! target_input_ids batch = Some (corrupted self true rand_t ids_t) /\
  s' !! anchor_attention_mask batch = Some mask_a /\
  s' !! target_attention_mask batch = Some mask_t.
Proof.
  intros Ha Hma Ht Hmt Hat Hmaa Hmat Hmta Hmtt Hrun.
  destruct (training_step_final_store self batch rand_a rand_t rand_n
              negative_index s s' loss ids_a mask_a ids_t mask_t
              Ha Hma Ht Hmt Hat Hmaa Hmat Hrun)
    as (r3 & r4 & Hr3 & Hr4 & Hne & ->).
  assert (Hlive : forall r x, s !! r = Some x -> r3 <> r /\ r4 <> r)
    by (intros r x Hr; split; congruence).
  destruct (Hlive _ _ Ha), (Hlive _ _ Hma), (Hlive _ _ Ht), (Hlive _ _ Hmt).
  repeat split.
  - rewrite !lookup_insert_ne by congruence. apply lookup_insert_eq.
  - rewrite (lookup_insert_ne _ r3), (lookup_insert_ne _ r4),
      (lookup_insert_ne _ r3) by congruence.
    apply lookup_insert_eq.
  - rewrite !lookup_insert_ne by congruence. exact Hma.
  - rewrite !lookup_insert_ne by congruence. exact Hmt.
Qed.

(** X16: the negative examples of a training step are gathered from the
    anchor ids as the first forward call left them, and corrupted once
    more: the tensor the third forward call works on is a new one, and it
    holds 0 wherever the permuted row of the already corrupted anchors
    holds 0. *)
Theorem negatives_come_from_corrupted_anchors (self : Encoder.t) (batch : Batch)
    (rand_a rand_t rand_n : nat -> nat -> Q) (negative_index : nat -> nat)
    (s s' : Store) (loss : Loss) (ids_a mask_a ids_t mask_t : Ids) :
  s !! anchor_input_ids batch = Some ids_a ->
  s !! anchor_attention_mask batch = Some mask_a ->
  s !! target_input_ids batch = Some ids_t ->
  s !! target_attention_mask batch = Some mask_t ->
  anchor_input_ids batch <> target_input_ids batch ->
  anchor_attention_mask batch <> anchor_input_ids batch ->
  anchor_attention_mask batch <> target_input_ids batch ->
  step self batch rand_a rand_t rand_n negative_index s = (Ok loss, s') ->
  let anchors_after := corrupted self true rand_a ids_a in
  exists r negatives,
    s !! r = None /\ s' !! r = Some negatives /\
    (forall i j,
       negatives i j
       = corrupted self true rand_n
           (fun i j => anchors_after (negative_index i) j) i j) /\
    (forall i j, anchors_after (negative_index i) j = 0%Z -> negatives i j = 0%Z).
Proof.
  intros Ha Hma Ht Hmt Hat Hmaa Hmat Hrun anchors_after.
  destruct (training_step_final_store self batch rand_a rand_t rand_n
              negative_index s s' loss ids_a mask_a ids_t mask_t
              Ha Hma Ht Hmt Hat Hmaa Hmat Hrun)
    as (r3 & r4 & Hr3 & Hr4 & Hne & ->).
  exists r3. eexists. split; [exact Hr3|]. split; [apply lookup_insert_eq|].
  split; [reflexivity|].
  intros i j H0. unfold corrupted at 1. unfold Encoder.masked_fill_zero.
  destruct (Encoder.sentence_mask _ _ _ i j); [reflexivity | exact H0].
Qed.
End Step.

Lemma sample_step_returns :
  exists s',
    training_step 3 Sample.bert_model Sample.mlp_forward unit SampleStep.loss_fn
      (Sample.encoder "avg") SampleStep.batch SampleStep.rand SampleStep.rand
      SampleStep.rand SampleStep.negative_index SampleStep.caller_store
    = (Ok tt, s').
Proof.
  set (r := training_step _ _ _ _ _ _ _ _ _ _ _ _).
  assert (H : is_ok (fst r) = true) by (vm_compute; reflexivity).
  exists (snd r).
  destruct r as [[[]|e] s']; [reflexivity | discriminate].
Defined.

Lemma training_step_overwrites_batch_witness :
  exists s' : Store,
    s' !! 1%positive
    = Some (corrupted (Sample.encoder "avg") true SampleStep.rand SampleStep.anchor_ids) /\
    s' !! 3%positive
    = Some (corrupted (Sample.encoder "avg") true SampleStep.rand SampleStep.target_ids) /\
    s' !! 2%positive = Some SampleStep.ones /\
    s' !! 4%positive = Some SampleStep.ones.
Proof.
  destruct sample_step_returns as [s' Hrun]. exists s'.
  apply (training_step_overwrites_batch 3 Sample.bert_model Sample.mlp_forward
           unit SampleStep.loss_fn (Sample.encoder "avg") SampleStep.batch
           SampleStep.rand SampleStep.rand SampleStep.rand
           SampleStep.negative_index SampleStep.caller_store s' tt
           SampleStep.anchor_ids SampleStep.ones SampleStep.target_ids
           SampleStep.ones);
    try reflexivity; try discriminate.
  exact Hrun.
Defined.

Lemma negatives_come_from_corrupted_anchors_witness :
  let anchors_after :=
    corrupted (Sample.encoder "avg") true SampleStep.rand SampleStep.anchor_ids in
  exists (s' : Store) r negatives,
    SampleStep.caller_store !! r = None /\ s' !! r = Some negatives /\
    (forall i j,
       negatives i j
       = corrupted (Sample.encoder "avg") true SampleStep.rand
           (fun i j => anchors_after (SampleStep.negative_index i) j) i j) /\
    (forall i j, anchors_after (SampleStep.negative_index i) j = 0%Z ->
                 negatives i j = 0%Z).
Proof.
  intros anchors_after.
  destruct sample_step_returns as [s' Hrun]. exists s'.
  apply (negatives_come_from_corrupted_anchors 3 Sample.bert_model
           Sample.mlp_forward unit SampleStep.loss_fn (Sample.encoder "avg")
           SampleStep.batch SampleStep.rand SampleStep.rand SampleStep.rand
           SampleStep.negative_index SampleStep.caller_store s' tt
           SampleStep.anchor_ids SampleStep.ones SampleStep.target_ids
           SampleStep.ones);
    try reflexivity; try discriminate.
  exact Hrun.
Defined.

End TrainingFacts.

(** ** More on the evaluation step *)

Module EvaluateMore.
Import Evaluate.

Local Open Scope R_scope.

Lemma Rsum_nonneg (f : nat -> R) (n : nat) :
  (forall k, 0 <= f k) -> 0 <= Rsum f n.
Proof.
  intros Hf. induction n as [|n IH]; simpl.
  - lra.
  - specialize (Hf n). lra.
Qed.

Lemma Rsum_zero (f : nat -> R) (n : nat) :
  (forall k, f k = 0) -> Rsum f n = 0.
Proof.
  intros Hf. induction n as [|n IH]; simpl.
  - reflexivity.
  - rewrite IH, Hf. lra.
Qed.

Lemma Rlist_sum_nonneg (xs : list R) :
  (forall x, In x xs -> 0 <= x) -> 0 <= Rlist_sum xs.
Proof.
  induction xs as [|x xs IH]; simpl; intros H.
  - lra.
  - assert (0 <= x) by (apply H; left; reflexivity).
    assert (0 <= Rlist_sum xs) by (apply IH; intros y Hy; apply H; right; exact Hy).
    lra.
Qed.

Lemma Rlist_sum_ge_member (xs : list R) (x : R) :
  (forall y, In y xs -> 0 <= y) -> In x xs -> x <= Rlist_sum xs.
Proof.
  induction xs as [|y xs IH]; simpl; intros Hnn Hin; [contradiction|].
  assert (0 <= y) by (apply Hnn; left; reflexivity).
  assert (0 <= Rlist_sum xs)
    by (apply Rlist_sum_nonneg; intros z Hz; apply Hnn; right; exact Hz).
  destruct Hin as [-> | Hin].
  - lra.
  - assert (x <= Rlist_sum xs)
      by (apply IH; [intros z Hz; apply Hnn; right; exact Hz | exact Hin]).
    lra.
Qed.

Section Facts.
Variable D : nat.

Lemma squared_gap_nonneg (a b : Row) :
  0 <= Rsum (fun d => (a d - b d) * (a d - b d)) D.
Proof.
  apply Rsum_nonneg. intros k.
  pose proof (Rle_0_sqr (a k - b k)) as H. unfold Rsqr in H. exact H.
Qed.

Lemma distance_squared (a b : Row) :
  distance D a b * distance D a b
  = Rsum (fun d => (a d - b d) * (a d - b d)) D.
Proof. unfold distance. apply sqrt_sqrt. apply squared_gap_nonneg. Qed.

Lemma masked_select_Ok (x : Matrix) (mask : list bool) :
  length x = length mask ->
  masked_select x mask = Ok (map fst (List.filter snd (combine x mask))).
Proof.
  intros H. unfold masked_select. rewrite H, Nat.eqb_refl. reflexivity.
Qed.

Lemma masked_select_Err (x : Matrix) (mask : list bool) :
  length x <> length mask -> masked_select x mask = Err IndexError.
Proof.
  intros H. unfold masked_select.
  destruct (Nat.eqb_spec (length x) (length mask)); [contradiction | reflexivity].
Qed.

Lemma selected_pairs (anchors targets : Matrix) (labels : list Z) (lab : Z) :
  length anchors = length labels -> length targets = length labels ->
  combine
    (map fst (List.filter snd (combine anchors (map (fun l => (l =? lab)%Z) labels))))
    (map fst (List.filter snd (combine targets (map (fun l => (l =? lab)%Z) labels))))
  = picked anchors targets labels lab.
Proof.
  unfold picked. revert anchors targets.
  induction labels as [|l labels IH]; intros [|a anchors] [|t targets];
    simpl; try discriminate; try reflexivity.
  intros [= Ha] [= Ht]. destruct (l =? lab)%Z; simpl; rewrite (IH _ _ Ha Ht);
    reflexivity.
Qed.

(** How the step runs when the three lengths agree. *)
Lemma evaluate_run (encode : Ids -> Ids -> Matrix)
    (sim_mean : Matrix -> Matrix -> R) (batch : Batch) :
  let anchors := encode (anchor_input_ids batch) (anchor_attention_mask batch) in
  let targets := encode (target_input_ids batch) (target_attention_mask batch) in
  length anchors = length (labels batch) ->
  length targets = length (labels batch) ->
  exists m, _evaluate D encode sim_mean batch = Ok m /\
    diff_pos m
    = sqrt (Rlist_sum (map (fun ab : Row * Row =>
                              distance D (fst ab) (snd ab) * distance D (fst ab) (snd ab))
                           (picked anchors targets (labels batch) 1))) /\
    diff_neg m
    = sqrt (Rlist_sum (map (fun ab : Row * Row =>
                              distance D (fst ab) (snd ab) * distance D (fst ab) (snd ab))
                           (picked anchors targets (labels batch) 0))).
Proof.
  intros anchors targets Ha Ht. unfold _evaluate. fold anchors targets.
  rewrite !masked_select_Ok by (rewrite length_map; assumption).
  eexists. split; [reflexivity|]. simpl.
  unfold scalar_mean, norm, msub.
  rewrite !selected_pairs by assumption. rewrite !map_map.
  split; f_equal; f_equal; apply map_ext; intros [a b]; simpl;
    unfold sum_squares; rewrite distance_squared; reflexivity.
Qed.

Lemma picked_In (anchors targets : Matrix) (labels : list Z) (lab : Z)
    (P : Row -> Row -> Prop) :
  Forall2 P anchors targets ->
  forall ab, In ab (picked anchors targets labels lab) -> P (fst ab) (snd ab).
Proof.
  unfold picked. intros HP. revert labels.
  induction HP as [|a t anchors targets Hat HP IH]; intros labels ab; simpl.
  - contradiction.
  - destruct labels as [|l labels]; [contradiction|]. simpl.
    destruct (l =? lab)%Z; simpl.
    + intros [<- | Hin]; [exact Hat | apply (IH labels ab Hin)].
    + apply IH.
Qed.

Lemma picked_no_label (anchors targets : Matrix) (labels : list Z) (lab : Z) :
  (forall l, In l labels -> l <> lab) -> picked anchors targets labels lab = [].
Proof.
  unfold picked. revert anchors targets.
  induction labels as [|l labels IH]; intros anchors targets Hno.
  - destruct anchors, targets; reflexivity.
  - destruct anchors as [|a anchors], targets as [|t targets]; try reflexivity.
    simpl. destruct (Z.eqb_spec l lab) as [-> | Hne].
    + exfalso. apply (Hno lab); [left|]; reflexivity.
    + apply IH. intros l' Hl'. apply Hno. right. exact Hl'.
Qed.

(** X17: the evaluation step returns its metrics exactly when the number
    of labels equals the number of anchor embeddings and the number of
    target embeddings; otherwise the selection by label raises
    [IndexError]. *)
Theorem evaluate_returns_iff_lengths_agree (encode : Ids -> Ids -> Matrix)
    (sim_mean : Matrix -> Matrix -> R) (batch : Batch) :
  let anchors := encode (anchor_input_ids batch) (anchor_attention_mask batch) in
  let targets := encode (target_input_ids batch) (target_attention_mask batch) in
  (length anchors = length (labels batch) /\
   length targets = length (labels batch) ->
   is_ok (_evaluate D encode sim_mean batch) = true) /\
  (~ (length anchors = length (labels batch) /\
      length targets = length (labels batch)) ->
   _evaluate D encode sim_mean batch = Err IndexError).
Proof.
  intros anchors targets. split.
  - intros [Ha Ht].
    destruct (evaluate_run encode sim_mean batch Ha Ht) as (m & -> & _).
    reflexivity.
  - intros Hne. unfold _evaluate. fold anchors targets.
    destruct (Nat.eq_dec (length anchors) (length (labels batch))) as [Ha | Ha].
    + rewrite (masked_select_Ok anchors) by (rewrite length_map; exact Ha).
      rewrite (masked_select_Err targets); [reflexivity|].
      rewrite length_map. tauto.
    + rewrite (masked_select_Err anchors); [reflexivity|].
      rewrite length_map. exact Ha.
Qed.

(** X18: the logged [diff/pos] is the square root of the summed squared
    Euclidean distances of the positive pairs, so it is at least the
    distance of every positive pair; the same holds for [diff/neg] and the
    negative pairs. *)
Theorem diff_is_root_of_summed_squares (encode : Ids -> Ids -> Matrix)
    (sim_mean : Matrix -> Matrix -> R) (batch : Batch) :
  let anchors := encode (anchor_input_ids batch) (anchor_attention_mask batch) in
  let targets := encode (target_input_ids batch) (target_attention_mask batch) in
  let squares lab :=
    map (fun ab : Row * Row =>
           distance D (fst ab) (snd ab) * distance D (fst ab) (snd ab))
        (picked anchors targets (labels batch) lab) in
  length anchors = length (labels batch) ->
  length targets = length (labels batch) ->
  exists m, _evaluate D encode sim_mean batch = Ok m /\
    diff_pos m = sqrt (Rlist_sum (squares 1%Z)) /\
    diff_neg m = sqrt (Rlist_sum (squares 0%Z)) /\
    (forall ab, In ab (picked anchors targets (labels batch) 1) ->
       distance D (fst ab) (snd ab) <= diff_pos m) /\
    (forall ab, In ab (picked anchors targets (labels batch) 0) ->
       distance D (fst ab) (snd ab) <= diff_neg m).
Proof.
  intros anchors targets squares Ha Ht.
  destruct (evaluate_run encode sim_mean batch Ha Ht) as (m & Hm & Hp & Hn).
  fold anchors targets in Hp, Hn.
  exists m. split; [exact Hm|]. split; [exact Hp|]. split; [exact Hn|].
  assert (Hbound : forall lab ab,
            In ab (picked anchors targets (labels batch) lab) ->
            distance D (fst ab) (snd ab) <= sqrt (Rlist_sum (squares lab))).
  { intros lab ab Hin.
    assert (Hd : 0 <= distance D (fst ab) (snd ab)) by apply sqrt_pos.
    rewrite <- (sqrt_square (distance D (fst ab) (snd ab))) at 1 by exact Hd.
    apply sqrt_le_1_alt. apply Rlist_sum_ge_member.
    - intros y Hy. apply in_map_iff in Hy as (ab' & <- & _).
      rewrite distance_squared. apply squared_gap_nonneg.
    - apply in_map_iff. exists ab. split; [reflexivity | exact Hin]. }
  split; intros ab Hin; [rewrite Hp | rewrite Hn]; apply Hbound; exact Hin.
Qed.

(** X19: when no example of the batch carries label 0 the logged
    [diff/neg] is 0, and when none carries label 1 the logged [diff/pos]
    is 0: the norm of an empty selection is 0, not an undefined value. *)
Theorem diff_of_empty_subset_is_zero (encode : Ids -> Ids -> Matrix)
    (sim_mean : Matrix -> Matrix -> R) (batch : Batch) :
  let anchors := encode (anchor_input_ids batch) (anchor_attention_mask batch) in
  let targets := encode (target_input_ids batch) (target_attention_mask batch) in
  length anchors = length (labels batch) ->
  length targets = length (labels batch) ->
  exists m, _evaluate D encode sim_mean batch = Ok m /\
    ((forall l, In l (labels batch) -> l <> 0%Z) -> diff_neg m = 0) /\
    ((forall l, In l (labels batch) -> l <> 1%Z) -> diff_pos m = 0).
Proof.
  intros anchors targets Ha Ht.
  destruct (evaluate_run encode sim_mean batch Ha Ht) as (m & Hm & Hp & Hn).
  fold anchors targets in Hp, Hn.
  exists m. split; [exact Hm|]. split; intros Hno.
  - rewrite Hn, (picked_no_label _ _ _ _ Hno). simpl. apply sqrt_0.
  - rewrite Hp, (picked_no_label _ _ _ _ Hno). simpl. apply sqrt_0.
Qed.

(** X20: when every example has the same anchor and target embedding,
    both logged distances are 0. *)
Theorem diff_of_identical_embeddings_is_zero (encode : Ids -> Ids -> Matrix)
    (sim_mean : Matrix -> Matrix -> R) (batch : Batch) :
  let anchors := encode (anchor_input_ids batch) (anchor_attention_mask batch) in
  let targets := encode (target_input_ids batch) (target_attention_mask batch) in
  length anchors = length (labels batch) ->
  Forall2 (fun a t : Row => forall d, (d < D)%nat -> a d = t d) anchors targets ->
  exists m, _evaluate D encode sim_mean batch = Ok m /\
    diff_pos m = 0 /\ diff_neg m = 0.
Proof.
  intros anchors targets Ha Hsame.
  assert (Ht : length targets = length (labels batch)).
  { rewrite <- Ha. symmetry. apply (Forall2_length _ _ _ Hsame). }
  destruct (evaluate_run encode sim_mean batch Ha Ht) as (m & Hm & Hp & Hn).
  fold anchors targets in Hp, Hn.
  assert (Hgap : forall a t : Row, (forall d, (d < D)%nat -> a d = t d) ->
            distance D a t * distance D a t = 0).
  { intros a t Hat. rewrite distance_squared.
    clear -Hat. induction D as [|n IH]; simpl.
    - reflexivity.
    - rewrite IH by (intros d Hd; apply Hat; lia).
      rewrite (Hat n) by lia. lra. }
  assert (Hzero : forall lab,
            Rlist_sum (map (fun ab : Row * Row =>
                              distance D (fst ab) (snd ab) * distance D (fst ab) (snd ab))
                           (picked anchors targets (labels batch) lab)) = 0).
  { intros lab.
    pose proof (picked_In anchors targets (labels batch) lab _ Hsame) as Hin.
    induction (picked anchors targets (labels batch) lab) as [|ab l IH]; simpl.
    - reflexivity.
    - rewrite IH by (intros x Hx; apply Hin; right; exact Hx).
      rewrite (Hgap (fst ab) (snd ab)) by (apply Hin; left; reflexivity). lra. }
  exists m. split; [exact Hm|].
  rewrite Hp, Hn, !Hzero. split; apply sqrt_0.
Qed.
End Facts.

Lemma evaluate_returns_iff_lengths_agree_witness :
  let short := {| anchor_input_ids := anchor_input_ids Sample.eval_batch;
                  anchor_attention_mask := anchor_attention_mask Sample.eval_batch;
                  target_input_ids := target_input_ids Sample.eval_batch;
                  target_attention_mask := target_attention_mask Sample.eval_batch;
                  labels := [1%Z] |} in
  is_ok (_evaluate 2 Sample.encode Sample.sim_mean Sample.eval_batch) = true /\
  _evaluate 2 Sample.encode Sample.sim_mean short = Err IndexError.
Proof.
  intros short. split.
  - apply (evaluate_returns_iff_lengths_agree 2 Sample.encode Sample.sim_mean
             Sample.eval_batch).
    split; reflexivity.
  - apply (evaluate_returns_iff_lengths_agree 2 Sample.encode Sample.sim_mean short).
    intros [H _]. discriminate H.
Defined.

Lemma diff_is_root_of_summed_squares_witness :
  let anchors :=
    Sample.encode (anchor_input_ids Sample.eval_batch)
                  (anchor_attention_mask Sample.eval_batch) in
  let targets :=
    Sample.encode (target_input_ids Sample.eval_batch)
                  (target_attention_mask Sample.eval_batch) in
  let squares lab :=
    map (fun ab : Row * Row =>
           distance 2 (fst ab) (snd ab) * distance 2 (fst ab) (snd ab))
        (picked anchors targets (labels Sample.eval_batch) lab) in
  exists m, _evaluate 2 Sample.encode Sample.sim_mean Sample.eval_batch = Ok m /\
    diff_pos m = sqrt (Rlist_sum (squares 1%Z)) /\
    diff_neg m = sqrt (Rlist_sum (squares 0%Z)) /\
    (forall ab, In ab (picked anchors targets (labels Sample.eval_batch) 1) ->
       distance 2 (fst ab) (snd ab) <= diff_pos m) /\
    (forall ab, In ab (picked anchors targets (labels Sample.eval_batch) 0) ->
       distance 2 (fst ab) (snd ab) <= diff_neg m).
Proof.
  apply (diff_is_root_of_summed_squares 2 Sample.encode Sample.sim_mean
           Sample.eval_batch); reflexivity.
Defined.

Lemma diff_of_empty_subset_is_zero_witness :
  exists m, _evaluate 2 Sample.encode Sample.sim_mean Sample.eval_batch = Ok m /\
    ((forall l, In l (labels Sample.eval_batch) -> l <> 0%Z) -> diff_neg m = 0) /\
    ((forall l, In l (labels Sample.eval_batch) -> l <> 1%Z) -> diff_pos m = 0).
Proof.
  apply (diff_of_empty_subset_is_zero 2 Sample.encode Sample.sim_mean
           Sample.eval_batch); reflexivity.
Defined.

Lemma diff_of_identical_embeddings_is_zero_witness :
  let same := {| anchor_input_ids := ids_of_rows [[3]; [4]]%Z;
                 anchor_attention_mask := ids_of_rows [[1]; [1]]%Z;
                 target_input_ids := ids_of_rows [[3]; [4]]%Z;
                 target_attention_mask := ids_of_rows [[1]; [1]]%Z;
                 labels := [1; 0]%Z |} in
  exists m, _evaluate 2 Sample.encode Sample.sim_mean same = Ok m /\
    diff_pos m = 0 /\ diff_neg m = 0.
Proof.
  intros same.
  apply (diff_of_identical_embeddings_is_zero 2 Sample.encode Sample.sim_mean same).
  - reflexivity.
  - repeat constructor.
Defined.

End EvaluateMore.

(** ** More on the optimizer's name markers *)

Module OptimizerMore.
Import Optimizer.

(** X21: the group [configure_optimizers] builds with weight decay 0
    holds exactly the parameters yielded under a name in which [bias] or
    [LayerNorm.weight] occurs, and the group with the configured weight
    decay holds exactly the parameters yielded under a name in which
    neither occurs. *)
Theorem zero_decay_group_iff_marker_occurs (Param : Type)
    (named_parameters : list (string * Param)) (weight_decay learning_rate : Q) :
  exists g_decay g_no_decay,
    param_groups Param
      (configure_optimizers Param named_parameters weight_decay learning_rate)
    = [g_decay; g_no_decay] /\
    group_weight_decay Param g_decay = weight_decay /\
    group_weight_decay Param g_no_decay = 0%Q /\
    (forall p, In p (params Param g_no_decay) <->
       exists n, In (n, p) named_parameters /\
                 (occurs_in "bias" n \/ occurs_in "LayerNorm.weight" n)) /\
    (forall p, In p (params Param g_decay) <->
       exists n, In (n, p) named_parameters /\
                 ~ (occurs_in "bias" n \/ occurs_in "LayerNorm.weight" n)).
Proof.
  unfold configure_optimizers. simpl.
  eexists. eexists. split; [reflexivity|]. simpl.
  split; [reflexivity|]. split; [reflexivity|]. split; intros p.
  - rewrite in_map_iff. split.
    + intros [[n p'] [Hp Hf]]. simpl in Hp. subst p'.
      apply filter_In in Hf as [Hin Hf]. simpl in Hf.
      exists n. split; [exact Hin|].
      apply OptimizerFacts.any_no_decay_spec. exact Hf.
    + intros [n [Hin Hocc]]. exists (n, p). split; [reflexivity|].
      apply filter_In. split; [exact Hin|]. simpl.
      apply OptimizerFacts.any_no_decay_spec. exact Hocc.
  - rewrite in_map_iff. split.
    + intros [[n p'] [Hp Hf]]. simpl in Hp. subst p'.
      apply filter_In in Hf as [Hin Hf]. simpl in Hf.
      exists n. split; [exact Hin|].
      intros Hocc. apply OptimizerFacts.any_no_decay_spec in Hocc.
      rewrite Hocc in Hf. discriminate.
    + intros [n [Hin Hocc]]. exists (n, p). split; [reflexivity|].
      apply filter_In. split; [exact Hin|]. simpl.
      destruct (any_no_decay n) eqn:E; [|reflexivity].
      exfalso. apply Hocc. apply OptimizerFacts.any_no_decay_spec. exact E.
Qed.

End OptimizerMore.

(** ** The data module *)

Module DataModuleFacts.
Import DataModule.

Section Facts.
Variable Col : Type.
Variable tokenizer : Col -> nat -> string -> gmap string Col.

Lemma add_prefixed_spec (prefix : string) (tokenized features : gmap string Col) :
  add_prefixed Col prefix tokenized features
  = kmap (String.append prefix) tokenized ∪ features.
Proof.
  unfold add_prefixed.
  apply (map_fold_weak_ind
           (fun r m => r = kmap (String.append prefix) m ∪ features)).
  - rewrite kmap_empty. symmetry. apply (left_id_L ∅ (∪)).
  - intros i x m r _ ->. rewrite kmap_insert, insert_union_l;
      [reflexivity | apply _].
Qed.

Lemma prefixes_differ (k k' : string) :
  String.append "anchor_" k <> String.append "target_" k'.
Proof. discriminate. Qed.

Lemma labels_not_prefixed (k : string) :
  "labels"%string <> String.append "anchor_" k /\
  "labels"%string <> String.append "target_" k.
Proof. split; discriminate. Qed.

(** X22: the data module is constructed exactly for the task names
    [mrpc], [qqp] and [paws], and then it has two text fields and two
    dataset arguments; any other task name raises [KeyError] with that
    name. *)
Theorem init_known_tasks_only (model_name_or_path task_name : string)
    (max_seq_length : nat) (padding : string) (batch_size : nat) :
  let r := init model_name_or_path task_name max_seq_length padding batch_size in
  (In task_name ["mrpc"; "qqp"; "paws"]%string ->
   exists dm, r = inr dm /\
     length (text_fields dm) = 2%nat /\ length (dataset_args dm) = 2%nat /\
     DataModule.task_name dm = task_name /\
     DataModule.max_seq_length dm = max_seq_length /\
     DataModule.batch_size dm = batch_size) /\
  (~ In task_name ["mrpc"; "qqp"; "paws"]%string ->
   r = inl (KeyError task_name)).
Proof.
  intros r. subst r. split.
  - intros [<- | [<- | [<- | []]]]; eexists; (split; [reflexivity|]);
      repeat split.
  - intros Hnot. simpl in Hnot. unfold init, dict_get, text_field_map.
    rewrite !lookup_insert_ne by (intros <-; tauto).
    rewrite lookup_empty. reflexivity.
Qed.

(** The features of a batch that has every field it needs, as one
    expression: the label inserted over the prefixed target entries, over
    the prefixed anchor entries. *)
Lemma convert_to_features_value (self : t) (example_batch : gmap string Col)
    (f0 f1 : string) (rest : list string) (anchor_texts target_texts label : Col) :
  text_fields self = f0 :: f1 :: rest ->
  example_batch !! f0 = Some anchor_texts ->
  example_batch !! f1 = Some target_texts ->
  example_batch !! "label"%string = Some label ->
  convert_to_features Col tokenizer self example_batch
  = inr (<["labels"%string := label]>
           (kmap (String.append "target_")
                 (tokenizer target_texts (max_seq_length self) (padding self))
            ∪ (kmap (String.append "anchor_")
                    (tokenizer anchor_texts (max_seq_length self) (padding self))
               ∪ ∅))).
Proof.
  intros Hf H0 H1 Hl.
  unfold convert_to_features, list_get, dict_get. rewrite Hf. simpl.
  rewrite H0, H1, Hl. rewrite !add_prefixed_spec. reflexivity.
Qed.

Lemma features_lookup_anchor (ta tt : gmap string Col) (label : Col) (k : string) :
  ((<["labels"%string := label]>
      (kmap (String.append "target_") tt ∪ (kmap (String.append "anchor_") ta ∪ ∅)))
   : gmap string Col)
  !! String.append "anchor_" k = ta !! k.
Proof.
  rewrite lookup_insert_ne by apply labels_not_prefixed.
  rewrite lookup_union_r.
  - rewrite lookup_union_l by apply lookup_empty. apply lookup_kmap. apply _.
  - apply lookup_kmap_None; [apply _|]. intros k' Hk.
    exfalso. apply (prefixes_differ k k'). exact Hk.
Qed.

Lemma features_lookup_target (ta tt : gmap string Col) (label : Col) (k : string) :
  ((<["labels"%string := label]>
      (kmap (String.append "target_") tt ∪ (kmap (String.append "anchor_") ta ∪ ∅)))
   : gmap string Col)
  !! String.append "target_" k = tt !! k.
Proof.
  rewrite lookup_insert_ne by apply labels_not_prefixed.
  destruct (tt !! k) as [v|] eqn:E.
  - apply lookup_union_Some_raw. left.
    rewrite lookup_kmap by apply _. exact E.
  - apply lookup_union_None. split.
    + rewrite lookup_kmap by apply _. exact E.
    + apply lookup_union_None. split; [|apply lookup_empty].
      apply lookup_kmap_None; [apply _|]. intros k' Hk.
      exfalso. apply (prefixes_differ k' k). symmetry. exact Hk.
Qed.

(** X23: for a batch that has both text fields and the label, the
    features are the anchor's tokenizer entries under their names prefixed
    with [anchor_], the target's under their names prefixed with
    [target_], and the label column under [labels]: every entry is found
    under its new name, none is overwritten, and there is no other key. *)
Theorem convert_to_features_contents (self : t) (example_batch : gmap string Col)
    (f0 f1 : string) (rest : list string) (anchor_texts target_texts label : Col) :
  text_fields self = f0 :: f1 :: rest ->
  example_batch !! f0 = Some anchor_texts ->
  example_batch !! f1 = Some target_texts ->
  example_batch !! "label"%string = Some label ->
  let tokenized_anchor :=
    tokenizer anchor_texts (max_seq_length self) (padding self) in
  let tokenized_target :=
    tokenizer target_texts (max_seq_length self) (padding self) in
  exists features,
    convert_to_features Col tokenizer self example_batch = inr features /\
    features !! "labels"%string = Some label /\
    (forall k, features !! String.append "anchor_" k = tokenized_anchor !! k) /\
    (forall k, features !! String.append "target_" k = tokenized_target !! k) /\
    (forall key v, features !! key = Some v ->
       (key = "labels"%string /\ v = label) \/
       (exists k, key = String.append "anchor_" k /\ tokenized_anchor !! k = Some v) \/
       (exists k, key = String.append "target_" k /\ tokenized_target !! k = Some v)).
Proof.
  intros Hf H0 H1 Hl ta tt.
  rewrite (convert_to_features_value self example_batch f0 f1 rest
             anchor_texts target_texts label Hf H0 H1 Hl).
  fold ta tt. eexists. split; [reflexivity|].
  split; [apply lookup_insert_eq|].
  split; [intros k; apply features_lookup_anchor|].
  split; [intros k; apply features_lookup_target|].
  intros key v. rewrite lookup_insert. case_decide as Hkey.
  - intros [= <-]. left. split; [symmetry; exact Hkey | reflexivity].
  - intros Hv. right.
    apply lookup_union_Some_raw in Hv as [Hv | [_ Hv]].
    + right. apply lookup_kmap_Some in Hv; [exact Hv | apply _].
    + left. apply lookup_union_Some_raw in Hv as [Hv | [_ Hv]].
      * apply lookup_kmap_Some in Hv; [exact Hv | apply _].
      * rewrite lookup_empty in Hv. discriminate.
Qed.

(** X24: a batch that lacks a field makes the conversion raise
    [KeyError] with the name of the first missing one, in the order anchor
    text field, target text field, [label]. *)
Theorem convert_to_features_key_errors (self : t) (example_batch : gmap string Col)
    (f0 f1 : string) (rest : list string) :
  text_fields self = f0 :: f1 :: rest ->
  (example_batch !! f0 = None ->
   convert_to_features Col tokenizer self example_batch = inl (KeyError f0)) /\
  (is_Some (example_batch !! f0) -> example_batch !! f1 = None ->
   convert_to_features Col tokenizer self example_batch = inl (KeyError f1)) /\
  (is_Some (example_batch !! f0) -> is_Some (example_batch !! f1) ->
   example_batch !! "label"%string = None ->
   convert_to_features Col tokenizer self example_batch = inl (KeyError "label")).
Proof.
  intros Hf. unfold convert_to_features, list_get, dict_get. rewrite Hf. simpl.
  split; [|split].
  - intros ->. reflexivity.
  - intros [x ->] ->. reflexivity.
  - intros [x ->] [y ->] ->. reflexivity.
Qed.

(** X25: when the tokenizer returns [input_ids] and an [attention_mask],
    the features of a complete batch contain every column the data module
    hands to the loader. *)
Theorem convert_to_features_has_columns (self : t)
    (example_batch : gmap string Col) (f0 f1 : string) (rest : list string) :
  text_fields self = f0 :: f1 :: rest ->
  is_Some (example_batch !! f0) ->
  is_Some (example_batch !! f1) ->
  is_Some (example_batch !! "label"%string) ->
  (forall texts n p, is_Some (tokenizer texts n p !! "input_ids"%string) /\
                     is_Some (tokenizer texts n p !! "attention_mask"%string)) ->
  exists features,
    convert_to_features Col tokenizer self example_batch = inr features /\
    forall c, In c columns -> is_Some (features !! c).
Proof.
  intros Hf [a H0] [b H1] [l Hl] Htok.
  rewrite (convert_to_features_value self example_batch f0 f1 rest a b l
             Hf H0 H1 Hl).
  eexists. split; [reflexivity|].
  intros c [<- | [<- | [<- | [<- | [<- | []]]]]].
  - change "anchor_input_ids"%string with (String.append "anchor_" "input_ids").
    rewrite features_lookup_anchor. apply Htok.
  - change "anchor_attention_mask"%string
      with (String.append "anchor_" "attention_mask").
    rewrite features_lookup_anchor. apply Htok.
  - change "target_input_ids"%string with (String.append "target_" "input_ids").
    rewrite features_lookup_target. apply Htok.
  - change "target_attention_mask"%string
      with (String.append "target_" "attention_mask").
    rewrite features_lookup_target. apply Htok.
  - rewrite lookup_insert_eq. eauto.
Qed.
End Facts.

Lemma init_known_tasks_only_witness :
  (exists dm, init "roberta-base" "qqp" 32 "max_length" 32 = inr dm /\
     length (text_fields dm) = 2%nat /\ length (dataset_args dm) = 2%nat /\
     DataModule.task_name dm = "qqp"%string /\
     DataModule.max_seq_length dm = 32%nat /\
     DataModule.batch_size dm = 32%nat) /\
  init "roberta-base" "sst2" 32 "max_length" 32 = inl (KeyError "sst2").
Proof.
  split.
  - apply (init_known_tasks_only "roberta-base" "qqp" 32 "max_length" 32).
    right. left. reflexivity.
  - apply (init_known_tasks_only "roberta-base" "sst2" 32 "max_length" 32).
    intros [H | [H | [H | []]]]; discriminate H.
Defined.

Lemma convert_to_features_contents_witness :
  let tokenized_anchor := SampleData.tokenizer 10 32 "max_length" in
  let tokenized_target := SampleData.tokenizer 20 32 "max_length" in
  exists features,
    convert_to_features nat SampleData.tokenizer SampleData.data_module
      SampleData.example_batch = inr features /\
    features !! "labels"%string = Some 1%nat /\
    (forall k, features !! String.append "anchor_" k = tokenized_anchor !! k) /\
    (forall k, features !! String.append "target_" k = tokenized_target !! k) /\
    (forall key v, features !! key = Some v ->
       (key = "labels"%string /\ v = 1%nat) \/
       (exists k, key = String.append "anchor_" k /\ tokenized_anchor !! k = Some v) \/
       (exists k, key = String.append "target_" k /\ tokenized_target !! k = Some v)).
Proof.
  apply (convert_to_features_contents nat SampleData.tokenizer
           SampleData.data_module SampleData.example_batch
           "question1" "question2" [] 10%nat 20%nat 1%nat); reflexivity.
Defined.

Lemma convert_to_features_key_errors_witness :
  convert_to_features nat SampleData.tokenizer SampleData.data_module
    (<["question2"%string := 20%nat]> (<["label"%string := 1%nat]> ∅))
  = inl (KeyError "question1") /\
  convert_to_features nat SampleData.tokenizer SampleData.data_module
    (<["question1"%string := 10%nat]> (<["label"%string := 1%nat]> ∅))
  = inl (KeyError "question2") /\
  convert_to_features nat SampleData.tokenizer SampleData.data_module
    (<["question1"%string := 10%nat]> (<["question2"%string := 20%nat]> ∅))
  = inl (KeyError "label").
Proof.
  split; [|split].
  - apply (convert_to_features_key_errors nat SampleData.tokenizer
             SampleData.data_module _ "question1" "question2" []);
      reflexivity.
  - apply (convert_to_features_key_errors nat SampleData.tokenizer
             SampleData.data_module _ "question1" "question2" []);
      [reflexivity | eexists; reflexivity | reflexivity].
  - apply (convert_to_features_key_errors nat SampleData.tokenizer
             SampleData.data_module _ "question1" "question2" []);
      [reflexivity | eexists; reflexivity | eexists; reflexivity | reflexivity].
Defined.

Lemma convert_to_features_has_columns_witness :
  exists features,
    convert_to_features nat SampleData.tokenizer SampleData.data_module
      SampleData.example_batch = inr features /\
    forall c, In c columns -> is_Some (features !! c).
Proof.
  apply (convert_to_features_has_columns nat SampleData.tokenizer
           SampleData.data_module SampleData.example_batch
           "question1" "question2" []).
  - reflexivity.
  - eexists; reflexivity.
  - eexists; reflexivity.
  - eexists; reflexivity.
  - intros texts n p. split; eexists; reflexivity.
Defined.

End DataModuleFacts.
